(** * ZstdFilter: a shallow embedding of drogon's zstd filter

    The translation unit [lib/src/ZstdFilter.cc] wraps the zstd library:
    one-shot compression and decompression of a [std::string], their
    "advanced" variants working on an explicit context, four streaming
    functions reading a [std::istream], and the HTTP filter that decides
    which response bodies are compressed.

    zstd itself is not part of the repository.  Its entry points are taken
    as the fields of a class, the facts of [zstd.h] the code relies on are
    stated as small contracts, and a reference codec at the end of the
    definitions shows that the contracts can be met and lets every function
    be run on concrete bytes.

    Conventions.  [size_t] and [unsigned long long] are both 64 bits wide
    and their values are numbers of type [N]; no arithmetic of the file can
    wrap.  A [std::string] of length above [max_size()] cannot be built;
    below that limit memory is assumed to be available, also for the two
    working buffers of a streaming function.  The request half of
    [doFilter] depends on an overload of [shouldCompress] that the file
    declares but does not define; that predicate is a parameter of the
    model. *)

From Stdlib Require Import NArith ZArith List String Bool Lia.
From coqutil Require Import Byte LittleEndianList.
Import ListNotations.
Local Open Scope N_scope.

(** ** Bytes, strings and exceptions *)

(** The contents of a [std::string] or of a [char] buffer. *)
Definition bytes : Type := list byte.

(** [s.size()], a [size_t]. *)
Definition size (s : bytes) : N := N.of_nat (List.length s).

(** The exceptions that can leave the functions of the file:
    [std::runtime_error] thrown by the code itself, [std::length_error]
    thrown by [std::string] when asked for more than [max_size()]
    characters, and [std::ios_base::failure] thrown by a stream whose
    exception mask is set. *)
Inductive exn : Type :=
| runtime_error (what : string)
| length_error
| ios_failure.

(** How a call of a function declared to return a value ends.
    [FlowsOffEnd]: control reached the closing brace without executing a
    [return] statement, so no value is handed to the caller; from that
    point on the behaviour of the program is undefined, and nothing is
    said here of what follows.
    [OutOfFuel] belongs to the model only: the loops are run with a bound
    on their iterations. *)
Inductive outcome (A : Type) : Type :=
| Returned (a : A)
| Threw (e : exn)
| FlowsOffEnd
| OutOfFuel.

Arguments Returned {A} a.
Arguments Threw {A} e.
Arguments FlowsOffEnd {A}.
Arguments OutOfFuel {A}.

(** ** Constants *)

(** [static constexpr int COMPRESSION_LEVEL = 3;] (ZstdFilter.h). *)
Definition COMPRESSION_LEVEL : Z := 3%Z.

(** The rest of this part is what the file takes from [zstd.h]. *)

(** [#define ZSTD_CONTENTSIZE_UNKNOWN (0ULL - 1)] and
    [#define ZSTD_CONTENTSIZE_ERROR (0ULL - 2)]. *)
Definition ZSTD_CONTENTSIZE_UNKNOWN : N := 2 ^ 64 - 1.
Definition ZSTD_CONTENTSIZE_ERROR : N := 2 ^ 64 - 2.

(** Error codes are the top of the [size_t] range:
    [ZSTD_isError(code)] is [code > (size_t)-ZSTD_error_maxCode]. *)
Definition ZSTD_error_maxCode : N := 120.
Definition ZSTD_isError (code : N) : bool := 2 ^ 64 - ZSTD_error_maxCode <? code.

(** The second argument of [ZSTD_compressStream2]. *)
Inductive ZSTD_EndDirective : Type := ZSTD_e_continue | ZSTD_e_flush | ZSTD_e_end.

(** One call of a streaming primitive on [(ctx, &outputBuffer, &inputBuffer)]
    with [outputBuffer.pos = 0]: the context after the call, the returned
    [size_t], by how much [inputBuffer.pos] moved, and the bytes now at the
    front of the output buffer ([outputBuffer.pos] is their number). *)
Record StreamRet (C : Type) : Type := mkStreamRet {
  ctx_after : C;
  code : N;
  advance : N;
  emitted : bytes
}.

Arguments mkStreamRet {C}.
Arguments ctx_after {C}.
Arguments code {C}.
Arguments advance {C}.
Arguments emitted {C}.

(** The externals of the translation unit.  A one-shot primitive called on
    [(dst, dstCapacity, src, src.size())] yields its return value and the
    bytes it stored at the front of [dst].  [string_max_size] is
    [std::string::max_size()] of the C++ runtime. *)
Class Externals : Type := {
  string_max_size : N;
  ZSTD_getErrorName : N -> string;
  ZSTD_compressBound : N -> N;
  ZSTD_compress : N -> bytes -> Z -> N * bytes;
  ZSTD_getFrameContentSize : bytes -> N;
  ZSTD_decompress : N -> bytes -> N * bytes;
  CCtx : Type;
  DCtx : Type;
  fresh_CCtx : CCtx;
  fresh_DCtx : DCtx;
  ZSTD_compressCCtx : CCtx -> N -> bytes -> Z -> N * bytes;
  ZSTD_decompressDCtx : DCtx -> N -> bytes -> N * bytes;
  ZSTD_CStreamOutSize : N;
  ZSTD_DStreamOutSize : N;
  ZSTD_compressStream2 : CCtx -> N -> bytes -> ZSTD_EndDirective -> StreamRet CCtx;
  ZSTD_compressStream : CCtx -> N -> bytes -> StreamRet CCtx;
  ZSTD_endStream : CCtx -> N -> StreamRet CCtx;
  ZSTD_decompressStream : DCtx -> N -> bytes -> StreamRet DCtx
}.

(** ** Context handles *)

(** [ZSTD_createCCtx] / [ZSTD_createDCtx] hand out handles and
    [ZSTD_freeCCtx] / [ZSTD_freeDCtx] take them back.  The world records
    the handles that are live, every release that happened (latest first),
    and how many more contexts the allocator can provide: creation returns
    [NULL] when that number is zero. *)
Record World : Type := mkWorld {
  next_handle : nat;
  live : list nat;
  released : list nat;
  ctx_budget : nat
}.

(** The world right after a context was handed out. *)
Definition acquired (w : World) : World :=
  {| next_handle := S (next_handle w);
     live := next_handle w :: live w;
     released := released w;
     ctx_budget := pred (ctx_budget w) |}.

Definition ZSTD_createCtx (w : World) : option nat * World :=
  match ctx_budget w with
  | O => (None, w)
  | S _ => (Some (next_handle w), acquired w)
  end.

Definition ZSTD_freeCtx (h : nat) (w : World) : World :=
  {| next_handle := next_handle w;
     live := remove Nat.eq_dec h (live w);
     released := h :: released w;
     ctx_budget := ctx_budget w |}.

(** Handles are handed out in increasing order: in a world built by these
    two operations every handle seen so far is below the next one. *)
Definition tidy (w : World) : Prop :=
  (forall h, In h (live w) -> (h < next_handle w)%nat)
  /\ (forall h, In h (released w) -> (h < next_handle w)%nat).

Definition ZSTD_createCCtx := ZSTD_createCtx.
Definition ZSTD_createDCtx := ZSTD_createCtx.
Definition ZSTD_freeCCtx := ZSTD_freeCtx.
Definition ZSTD_freeDCtx := ZSTD_freeCtx.

(** ** One-shot functions *)

Section OneShot.
Context {X : Externals}.

(** [std::string s(n, '\0')]: throws [std::length_error] above
    [max_size()].  Memory is taken to suffice: the [std::bad_alloc] of an
    allocation that the system refuses is not modelled, so [Some] stands
    for a run in which the allocation succeeded, and what is proved of the
    outcome [Returned] holds of such runs. *)
Definition new_string (n : N) : option bytes :=
  if string_max_size <? n then None else Some (repeat Byte.x00 (N.to_nat n)).

(** [s.resize(n)]: truncates, or pads with ['\0']. *)
Definition resize (s : bytes) (n : N) : option bytes :=
  if string_max_size <? n then None
  else Some (firstn (N.to_nat n) s ++ repeat Byte.x00 (N.to_nat n - List.length s)%nat).

(** The destination buffer after a primitive stored [written] at its
    front. *)
Definition store (written buf : bytes) : bytes :=
  written ++ skipn (List.length written) buf.

(** [std::string ZstdFilter::compressData(const std::string &data)] *)
Definition compressData (data : bytes) : outcome bytes :=
  let cBuffSize := ZSTD_compressBound (size data) in
  match new_string cBuffSize with
  | None => Threw length_error
  | Some compressed =>
      let '(cSize, written) := ZSTD_compress cBuffSize data COMPRESSION_LEVEL in
      let compressed := store written compressed in
      if ZSTD_isError cSize
      then Threw (runtime_error ("Compression error: " ++ ZSTD_getErrorName cSize)%string)
      else match resize compressed cSize with
           | None => Threw length_error
           | Some compressed => Returned compressed
           end
  end.

(** [std::string ZstdFilter::decompressData(const std::string &data)] *)
Definition decompressData (data : bytes) : outcome bytes :=
  let rSize := ZSTD_getFrameContentSize data in
  if (rSize =? ZSTD_CONTENTSIZE_ERROR) || (rSize =? ZSTD_CONTENTSIZE_UNKNOWN)
  then Threw (runtime_error "Invalid compressed data"%string)
  else
    match new_string rSize with
    | None => Threw length_error
    | Some decompressed =>
        let '(dSize, written) := ZSTD_decompress rSize data in
        let decompressed := store written decompressed in
        if ZSTD_isError dSize
        then Threw (runtime_error ("Decompression error: " ++ ZSTD_getErrorName dSize)%string)
        else match resize decompressed dSize with
             | None => Threw length_error
             | Some decompressed => Returned decompressed
             end
    end.

(** [std::string ZstdFilter::advancedCompressData(const std::string &data)] *)
Definition advancedCompressData (data : bytes) (w : World) : outcome bytes * World :=
  match ZSTD_createCCtx w with
  | (None, w) =>
      (Threw (runtime_error "Failed to create ZSTD compression context"%string), w)
  | (Some cctx, w) =>
      let bound := ZSTD_compressBound (size data) in
      match new_string bound with
      | None => (Threw length_error, w)
      | Some compressedData =>
          let '(compressedSize, written) :=
            ZSTD_compressCCtx fresh_CCtx (size compressedData) data COMPRESSION_LEVEL in
          let compressedData := store written compressedData in
          let w := ZSTD_freeCCtx cctx w in
          if ZSTD_isError compressedSize
          then (Threw (runtime_error
                         ("Compression error: " ++ ZSTD_getErrorName compressedSize)%string), w)
          else match resize compressedData compressedSize with
               | None => (Threw length_error, w)
               | Some compressedData => (Returned compressedData, w)
               end
      end
  end.

(** [std::string ZstdFilter::advancedDecompressData(const std::string &data)] *)
Definition advancedDecompressData (data : bytes) (w : World) : outcome bytes * World :=
  match ZSTD_createDCtx w with
  | (None, w) =>
      (Threw (runtime_error "Failed to create ZSTD decompression context"%string), w)
  | (Some dctx, w) =>
      let capacity := ZSTD_getFrameContentSize data in
      if capacity =? ZSTD_CONTENTSIZE_ERROR
      then (Threw (runtime_error "Invalid data for decompression"%string), ZSTD_freeDCtx dctx w)
      else if capacity =? ZSTD_CONTENTSIZE_UNKNOWN
      then (Threw (runtime_error "Original size unknown"%string), ZSTD_freeDCtx dctx w)
      else
        match new_string capacity with
        | None => (Threw length_error, w)
        | Some decompressedData =>
            let '(decompressedSize, written) :=
              ZSTD_decompressDCtx fresh_DCtx capacity data in
            let decompressedData := store written decompressedData in
            let w := ZSTD_freeDCtx dctx w in
            if ZSTD_isError decompressedSize
            then (Threw (runtime_error
                           ("Decompression error: " ++ ZSTD_getErrorName decompressedSize)%string), w)
            else match resize decompressedData decompressedSize with
                 | None => (Threw length_error, w)
                 | Some decompressedData => (Returned decompressedData, w)
                 end
        end
  end.

End OneShot.

(** ** Input streams *)

(** [std::ios_base::iostate]. *)
Record iostate : Type := mkIostate {
  badbit : bool;
  eofbit : bool;
  failbit : bool
}.

Definition goodbit : iostate := mkIostate false false false.

(** A [std::istream] over a finite sequence of characters: what is still
    to be read, [rdstate()], and the mask installed with [exceptions()]. *)
Record istream : Type := mkIstream {
  pending : bytes;
  rdstate : iostate;
  exceptions : iostate
}.

(** [input.good()] *)
Definition good (input : istream) : bool :=
  negb (badbit (rdstate input) || eofbit (rdstate input) || failbit (rdstate input)).

(** [setstate] throws [std::ios_base::failure] when a bit of the new state
    is in the exception mask. *)
Definition raises (state mask : iostate) : bool :=
  (badbit state && badbit mask) || (eofbit state && eofbit mask)
  || (failbit state && failbit mask).

(** [input.read(buf, n)] followed by [input.gcount()]: the characters
    extracted and the stream afterwards, or [None] when the call throws.
    Reaching the end before [n] characters sets [eofbit | failbit]; on a
    stream that is not good nothing is extracted and [failbit] is set. *)
Definition read (input : istream) (n : N) : option (bytes * istream) :=
  if good input then
    let got := firstn (N.to_nat n) (pending input) in
    let rest := skipn (N.to_nat n) (pending input) in
    if size got <? n then
      let st := mkIostate (badbit (rdstate input)) true true in
      if raises st (exceptions input) then None
      else Some (got, mkIstream rest st (exceptions input))
    else Some (got, mkIstream rest (rdstate input) (exceptions input))
  else
    let st := mkIostate (badbit (rdstate input)) (eofbit (rdstate input)) true in
    if raises st (exceptions input) then None
    else Some ([], mkIstream (pending input) st (exceptions input)).

(** ** Streaming functions *)

(** The four streaming functions share one shape: read a buffer, hand it
    to the primitive until it is consumed, append what the primitive
    produced to the local [std::ostringstream output].  [log] keeps the
    values the primitive returned, latest first; the code looks at each
    one only through [ZSTD_isError]. *)
Record Progress (C : Type) : Type := mkProgress {
  ctx : C;
  output : bytes;
  log : list N
}.

Arguments mkProgress {C}.
Arguments ctx {C}.
Arguments output {C}.
Arguments log {C}.

(** How the reading loop is left. *)
Inductive LoopExit (C : Type) : Type :=
| Drained (p : Progress C)
| CodecFailed (ret : N) (p : Progress C)
| ReadThrew (p : Progress C)
| Diverged.

Arguments Drained {C}.
Arguments CodecFailed {C}.
Arguments ReadThrew {C}.
Arguments Diverged {C}.

Section Loops.
Context {C : Type}.
Variable primitive : C -> N -> bytes -> StreamRet C.
Variable bufferSize : N.

(** [while (inputBuffer.pos < inputBuffer.size) { outputBuffer.pos = 0;
    ret = primitive(...); if (ZSTD_isError(ret)) ...;
    output.write(outBuffer.data(), outputBuffer.pos); }]
    on the characters [chunk] of one [read]. *)
Fixpoint consume (fuel : nat) (chunk : bytes) (pos : N) (p : Progress C) : LoopExit C :=
  if pos <? size chunk then
    match fuel with
    | O => Diverged
    | S fuel =>
        let r := primitive (ctx p) bufferSize (skipn (N.to_nat pos) chunk) in
        if ZSTD_isError (code r)
        then CodecFailed (code r) (mkProgress (ctx_after r) (output p) (code r :: log p))
        else consume fuel chunk (pos + advance r)
               (mkProgress (ctx_after r) (output p ++ emitted r) (code r :: log p))
    end
  else Drained p.

(** [while (input.good()) { input.read(inBuffer.data(), bufferSize);
    inputBuffer.size = input.gcount(); inputBuffer.pos = 0; ... }] *)
Fixpoint pump (inner fuel : nat) (input : istream) (p : Progress C) : LoopExit C :=
  if good input then
    match fuel with
    | O => Diverged
    | S fuel =>
        match read input bufferSize with
        | None => ReadThrew p
        | Some (chunk, input) =>
            match consume inner chunk 0 p with
            | Drained p => pump inner fuel input p
            | e => e
            end
        end
    end
  else Drained p.

End Loops.

(** What is observed of one call of a streaming function up to the point
    where it threw or reached its closing brace: which of the two happened,
    the contents of its local [output] and the values its primitive had
    returned by then, and the world at that point.  For a run that threw
    this is the world the caller finds.  For a run that reached the
    closing brace it is only the state in which the brace was reached:
    what the program does next is undefined. *)
Record StreamRun : Type := mkStreamRun {
  result : outcome bytes;
  accumulated : bytes;
  returned_codes : list N;
  world : World
}.

Section Streaming.
Context {X : Externals}.

(** The body of [compressStream] and [advancedCompressStream] after the
    context was created; they differ in the primitive of the loop.  The
    last statement releases the context and no [return] follows it: the
    arm [FlowsOffEnd] records what had been done when the closing brace
    was reached, not what the caller finds. *)
Definition compress_loop (primitive : CCtx -> N -> bytes -> StreamRet CCtx)
    (fuel : nat) (input : istream) (cctx : nat) (w : World) : StreamRun :=
  let bufferSize := ZSTD_CStreamOutSize in
  match pump primitive bufferSize fuel fuel input (mkProgress fresh_CCtx [] []) with
  | CodecFailed ret p =>
      mkStreamRun
        (Threw (runtime_error ("Compression error: " ++ ZSTD_getErrorName ret)%string))
        (output p) (log p) (ZSTD_freeCCtx cctx w)
  | ReadThrew p => mkStreamRun (Threw ios_failure) (output p) (log p) w
  | Diverged => mkStreamRun OutOfFuel [] [] w
  | Drained p =>
      let r := ZSTD_endStream (ctx p) bufferSize in
      if ZSTD_isError (code r)
      then mkStreamRun
             (Threw (runtime_error
                       ("Compression error: " ++ ZSTD_getErrorName (code r))%string))
             (output p) (code r :: log p) (ZSTD_freeCCtx cctx w)
      else mkStreamRun FlowsOffEnd (output p ++ emitted r) (code r :: log p)
             (ZSTD_freeCCtx cctx w)
  end.

(** [std::string ZstdFilter::compressStream(std::istream &input)] *)
Definition compressStream (fuel : nat) (input : istream) (w : World) : StreamRun :=
  match ZSTD_createCCtx w with
  | (None, w) =>
      mkStreamRun (Threw (runtime_error "Failed to create ZSTD compression context"%string))
        [] [] w
  | (Some cctx, w) =>
      compress_loop (fun c cap src => ZSTD_compressStream2 c cap src ZSTD_e_continue)
        fuel input cctx w
  end.

(** [std::string ZstdFilter::advancedCompressStream(std::istream &input)] *)
Definition advancedCompressStream (fuel : nat) (input : istream) (w : World) : StreamRun :=
  match ZSTD_createCCtx w with
  | (None, w) =>
      mkStreamRun (Threw (runtime_error "Failed to create ZSTD compression context"%string))
        [] [] w
  | (Some cctx, w) => compress_loop ZSTD_compressStream fuel input cctx w
  end.

(** [std::string ZstdFilter::decompressStream(std::istream &input)].  As
    in [compress_loop], the arm [FlowsOffEnd] records what had been done
    when the closing brace was reached. *)
Definition decompressStream (fuel : nat) (input : istream) (w : World) : StreamRun :=
  match ZSTD_createDCtx w with
  | (None, w) =>
      mkStreamRun (Threw (runtime_error "Failed to create ZSTD decompression context"%string))
        [] [] w
  | (Some dctx, w) =>
      let bufferSize := ZSTD_DStreamOutSize in
      match pump ZSTD_decompressStream bufferSize fuel fuel input
              (mkProgress fresh_DCtx [] []) with
      | CodecFailed ret p =>
          mkStreamRun
            (Threw (runtime_error ("Decompression error: " ++ ZSTD_getErrorName ret)%string))
            (output p) (log p) (ZSTD_freeDCtx dctx w)
      | ReadThrew p => mkStreamRun (Threw ios_failure) (output p) (log p) w
      | Diverged => mkStreamRun OutOfFuel [] [] w
      | Drained p => mkStreamRun FlowsOffEnd (output p) (log p) (ZSTD_freeDCtx dctx w)
      end
  end.

(** [std::string ZstdFilter::advancedDecompressStream(std::istream &input)]
    is the same text as [decompressStream]. *)
Definition advancedDecompressStream := decompressStream.

End Streaming.

(** ** The HTTP filter *)

(** [drogon::ContentType] is declared in drogon's headers; the file names
    three of its values, every other value is [CT_other]. *)
Inductive ContentType : Type :=
| CT_APPLICATION_JSON
| CT_TEXT_PLAIN
| CT_TEXT_HTML
| CT_other (n : nat).

Definition ContentType_eqb (a b : ContentType) : bool :=
  match a, b with
  | CT_APPLICATION_JSON, CT_APPLICATION_JSON => true
  | CT_TEXT_PLAIN, CT_TEXT_PLAIN => true
  | CT_TEXT_HTML, CT_TEXT_HTML => true
  | CT_other n, CT_other m => Nat.eqb n m
  | _, _ => false
  end.

(** What the filter reads and writes of a [drogon::HttpResponse]. *)
Record HttpResponse : Type := mkResponse {
  getContentType : ContentType;
  body : bytes;
  headers : list (string * string)
}.

Definition setBody (b : bytes) (resp : HttpResponse) : HttpResponse :=
  mkResponse (getContentType resp) b (headers resp).

Definition addHeader (field value : string) (resp : HttpResponse) : HttpResponse :=
  mkResponse (getContentType resp) (body resp) ((field, value) :: headers resp).

(** [bool ZstdFilter::shouldCompress(const drogon::HttpResponsePtr &resp)] *)
Definition shouldCompress (resp : HttpResponse) : bool :=
  let contentType := getContentType resp in
  (ContentType_eqb contentType CT_APPLICATION_JSON
   || ContentType_eqb contentType CT_TEXT_PLAIN
   || ContentType_eqb contentType CT_TEXT_HTML)
  && (1024 <? size (body resp)).

Section Filter.
Context {X : Externals}.

(** The response callback installed by [ZstdFilter::doFilter]: the lambda
    [[this, fcb](const HttpResponsePtr &resp) { ... fcb(resp); }].  The
    result is the response handed to the captured [fcb].  Every exception
    of [compressData] derives from [std::exception] and is caught. *)
Definition doFilter_response (resp : HttpResponse) : HttpResponse :=
  if shouldCompress resp then
    let body := body resp in
    if negb (size body =? 0) then
      match compressData body with
      | Returned compressed =>
          addHeader "Content-Encoding" "zstd" (setBody compressed resp)
      | _ => resp
      end
    else resp
  else resp.

End Filter.

(** ** The request half of the filter *)

(** [drogon::HttpMethod] is declared in drogon's headers; the file names
    [Post] only. *)
Inductive HttpMethod : Type :=
| Post
| OtherMethod (n : nat).

Definition HttpMethod_eqb (a b : HttpMethod) : bool :=
  match a, b with
  | Post, Post => true
  | OtherMethod n, OtherMethod m => Nat.eqb n m
  | _, _ => false
  end.

(** What the filter reads and writes of a [drogon::HttpRequest]; whatever
    else the predicate on requests looks at is in [attributes]. *)
Record HttpRequest : Type := mkRequest {
  method : HttpMethod;
  getBody : bytes;
  attributes : list (string * string)
}.

Definition setRequestBody (b : bytes) (req : HttpRequest) : HttpRequest :=
  mkRequest (method req) b (attributes req).

(** [drogon::k400BadRequest] *)
Definition k400BadRequest : N := 400.

(** What [doFilter] does with a request: it answers it itself, calling
    [fcb] with a new response on which it set the status code and the
    body, or it lets the chain go on by calling [fccb], the request being
    the one the next handler sees. *)
Inductive FilterAction : Type :=
| Replied (statusCode : N) (body : bytes)
| Continued (req : HttpRequest).

Section Request.
Context {X : Externals}.

(** [bool ZstdFilter::shouldCompress(const drogon::HttpRequestPtr &req)] is
    declared in ZstdFilter.h and defined nowhere in the file. *)
Variable shouldCompress_request : HttpRequest -> bool.

(** [void ZstdFilter::doFilter(req, fcb, fccb)] up to the call of [fccb].
    Every exception of [decompressData] derives from [std::exception] and
    is caught.  The assignment to [fcb] that follows the call of [fccb]
    installs the callback [doFilter_response]. *)
Definition doFilter (req : HttpRequest) : FilterAction :=
  if HttpMethod_eqb (method req) Post && shouldCompress_request req then
    let body := getBody req in
    if negb (size body =? 0) then
      match decompressData body with
      | Returned decompressed => Continued (setRequestBody decompressed req)
      | _ => Replied k400BadRequest (list_byte_of_string "Invalid compressed data")
      end
    else Continued req
  else Continued req.

End Request.

(** ** Instrumented primitives *)

(** A streaming primitive that answers with an error code whenever it is
    called with a capacity other than [bufferSize], with no input, or with
    more input than [bufferSize] bytes. *)
Definition guarded {C : Type} (bufferSize : N)
    (primitive : C -> N -> bytes -> StreamRet C) : C -> N -> bytes -> StreamRet C :=
  fun c cap src =>
    if (cap =? bufferSize) && (0 <? size src) && (size src <=? bufferSize)
    then primitive c cap src
    else mkStreamRet c (2 ^ 64 - 1) 0 [].

(** The externals with every streaming primitive guarded by the buffer size
    its caller uses. *)
Definition guard_streams (X : Externals) : Externals := {|
  string_max_size := @string_max_size X;
  ZSTD_getErrorName := @ZSTD_getErrorName X;
  ZSTD_compressBound := @ZSTD_compressBound X;
  ZSTD_compress := @ZSTD_compress X;
  ZSTD_getFrameContentSize := @ZSTD_getFrameContentSize X;
  ZSTD_decompress := @ZSTD_decompress X;
  CCtx := @CCtx X;
  DCtx := @DCtx X;
  fresh_CCtx := @fresh_CCtx X;
  fresh_DCtx := @fresh_DCtx X;
  ZSTD_compressCCtx := @ZSTD_compressCCtx X;
  ZSTD_decompressDCtx := @ZSTD_decompressDCtx X;
  ZSTD_CStreamOutSize := @ZSTD_CStreamOutSize X;
  ZSTD_DStreamOutSize := @ZSTD_DStreamOutSize X;
  ZSTD_compressStream2 := fun c cap src directive =>
    guarded (@ZSTD_CStreamOutSize X)
      (fun c cap src => @ZSTD_compressStream2 X c cap src directive) c cap src;
  ZSTD_compressStream := guarded (@ZSTD_CStreamOutSize X) (@ZSTD_compressStream X);
  ZSTD_endStream := fun c cap =>
    if cap =? @ZSTD_CStreamOutSize X then @ZSTD_endStream X c cap
    else mkStreamRet c (2 ^ 64 - 1) 0 [];
  ZSTD_decompressStream := guarded (@ZSTD_DStreamOutSize X) (@ZSTD_decompressStream X)
|}.

(** Two runs of the reading loop that differ at most in the values logged
    for the calls that reported no error. *)
Definition same_exit {C : Type} (a b : LoopExit C) : Prop :=
  match a, b with
  | Drained p, Drained q => ctx p = ctx q /\ output p = output q
  | CodecFailed r p, CodecFailed r' q => r = r' /\ ctx p = ctx q /\ output p = output q
  | ReadThrew p, ReadThrew q => ctx p = ctx q /\ output p = output q
  | Diverged, Diverged => True
  | _, _ => False
  end.

(** A log of values that are no errors; and what a loop leaves in the
    log: such values, then at most the error it stopped on. *)
Definition clean (codes : list N) : Prop :=
  Forall (fun ret => ZSTD_isError ret = false) codes.

Definition clean_exit {C : Type} (e : LoopExit C) : Prop :=
  match e with
  | Drained q | ReadThrew q => clean (log q)
  | CodecFailed ret q =>
      exists earlier, log q = ret :: earlier /\ clean earlier /\ ZSTD_isError ret = true
  | Diverged => True
  end.

Section Closing.
Context {X : Externals}.

(** What a streaming compression that read nothing has done when it throws
    or reaches its closing brace: the one call of [ZSTD_endStream] on a
    fresh context. *)
Definition closing_only (w : World) : StreamRun :=
  if ZSTD_isError (code (ZSTD_endStream fresh_CCtx ZSTD_CStreamOutSize))
  then mkStreamRun
         (Threw (runtime_error
                   ("Compression error: " ++
                    ZSTD_getErrorName (code (ZSTD_endStream fresh_CCtx ZSTD_CStreamOutSize)))))
         [] [code (ZSTD_endStream fresh_CCtx ZSTD_CStreamOutSize)]
         (ZSTD_freeCCtx (next_handle w) (acquired w))
  else mkStreamRun FlowsOffEnd
         (emitted (ZSTD_endStream fresh_CCtx ZSTD_CStreamOutSize))
         [code (ZSTD_endStream fresh_CCtx ZSTD_CStreamOutSize)]
         (ZSTD_freeCCtx (next_handle w) (acquired w)).

End Closing.

(** The first value of a primitive that [ZSTD_isError] flags is the last
    one a run asks for, and the run then ends by a [runtime_error]: among
    the values a run got, only the latest can be an error, and it is one
    exactly when the run threw a [runtime_error]. *)
Definition errors_end_the_run (run : StreamRun) : Prop :=
  match returned_codes run with
  | [] => True
  | latest :: earlier =>
      Forall (fun ret => ZSTD_isError ret = false) earlier
      /\ (ZSTD_isError latest = true
          <-> exists what, result run = Threw (runtime_error what))
  end.

(** ** The contract of the zstd entry points *)

Section Contract.
Context (X : Externals).

(** No [std::string] is so long that its size reads as an error code or
    as one of the two content-size sentinels. *)
Definition string_sizes_are_plain : Prop :=
  string_max_size <= 2 ^ 64 - ZSTD_error_maxCode.

(** "@return : compressed size written into [dst] (<= [dstCapacity]), or
    an error code". *)
Definition compress_within_capacity : Prop :=
  forall cap src level,
    ZSTD_isError (fst (ZSTD_compress cap src level)) = false ->
    size (snd (ZSTD_compress cap src level)) = fst (ZSTD_compress cap src level)
    /\ fst (ZSTD_compress cap src level) <= cap.


(** "decompressed size is always present when compression is completed
    using single-pass functions". *)
Definition frames_carry_content_size : Prop :=
  forall cap src level,
    ZSTD_isError (fst (ZSTD_compress cap src level)) = false ->
    ZSTD_getFrameContentSize (snd (ZSTD_compress cap src level)) = size src.

(** A frame decompresses to the data it was made from when the destination
    has room for it. *)
Definition frames_decode : Prop :=
  forall cap src level,
    ZSTD_isError (fst (ZSTD_compress cap src level)) = false ->
    ZSTD_decompress (size src) (snd (ZSTD_compress cap src level)) = (size src, src).

(** "ZSTD_compressCCtx() : Same as ZSTD_compress(), using an explicit
    ZSTD_CCtx" and "ZSTD_decompressDCtx() : Same as ZSTD_decompress(),
    requires an allocated ZSTD_DCtx". *)
Definition explicit_contexts_agree : Prop :=
  (forall cap src level,
      ZSTD_compressCCtx fresh_CCtx cap src level = ZSTD_compress cap src level)
  /\ (forall cap src,
         ZSTD_decompressDCtx fresh_DCtx cap src = ZSTD_decompress cap src).

(** A streaming primitive that is given input and reports no error moves
    [inputBuffer.pos] forward. *)
Definition makes_progress {C : Type} (primitive : C -> N -> bytes -> StreamRet C)
    (cap : N) : Prop :=
  forall c src,
    src <> [] ->
    ZSTD_isError (code (primitive c cap src)) = false ->
    0 < advance (primitive c cap src).

End Contract.

Section SizeContract.
Context (X : Externals).



End SizeContract.

Section StreamContract.
Context (X : Externals).

(** [ZSTD_compressStream] is documented as the alternative for
    [ZSTD_compressStream2(..., ZSTD_e_continue)] with a return value that
    means something else: the two consume and produce the same, leave the
    same context, and report the same errors. *)
Definition continue_variants_agree : Prop :=
  forall c cap src,
    ctx_after (ZSTD_compressStream c cap src)
    = ctx_after (ZSTD_compressStream2 c cap src ZSTD_e_continue)
    /\ advance (ZSTD_compressStream c cap src)
       = advance (ZSTD_compressStream2 c cap src ZSTD_e_continue)
    /\ emitted (ZSTD_compressStream c cap src)
       = emitted (ZSTD_compressStream2 c cap src ZSTD_e_continue)
    /\ ZSTD_isError (code (ZSTD_compressStream c cap src))
       = ZSTD_isError (code (ZSTD_compressStream2 c cap src ZSTD_e_continue))
    /\ (ZSTD_isError (code (ZSTD_compressStream c cap src)) = true ->
        code (ZSTD_compressStream c cap src)
        = code (ZSTD_compressStream2 c cap src ZSTD_e_continue)).

End StreamContract.

(** ** A reference codec *)

(** A store-only codec behind the same entry points.  A one-shot frame is
    the tag [01], the content size on eight little-endian bytes, and the
    data; a streamed frame is the tag [02], chunks of at most 255 bytes each
    preceded by its length, and a closing [00].  The one-shot decoder
    rejects input that ends inside a frame. *)
Module Reference.

(** [(size_t)-ZSTD_error_xxx] for the codes of [zstd_errors.h] used here. *)
Definition prefix_unknown : N := 2 ^ 64 - 10.
Definition corruption_detected : N := 2 ^ 64 - 20.
Definition dstSize_tooSmall : N := 2 ^ 64 - 70.
Definition srcSize_wrong : N := 2 ^ 64 - 72.

Definition getErrorName (code : N) : string :=
  if code =? prefix_unknown then "Unknown frame descriptor"
  else if code =? corruption_detected then "Data corruption detected"
  else if code =? dstSize_tooSmall then "Destination buffer is too small"
  else if code =? srcSize_wrong then "Src size is incorrect"
  else if ZSTD_isError code then "Unspecified error code"
  else "No error detected".

(** The [ZSTD_COMPRESSBOUND] macro of [zstd.h]. *)
Definition compressBound (srcSize : N) : N :=
  srcSize + N.shiftr srcSize 8
  + (if srcSize <? 131072 then N.shiftr (131072 - srcSize) 11 else 0).

Definition tag_sized : byte := Byte.x01.
Definition tag_streamed : byte := Byte.x02.

(** Eight little-endian bytes, and back. *)
Definition le64 (n : N) : bytes := le_split 8 (Z.of_N n).
Definition of_le (bs : bytes) : N := Z.to_N (le_combine bs).

Definition frame_of (src : bytes) : bytes :=
  tag_sized :: le64 (size src) ++ src.

Definition compress (cap : N) (src : bytes) (level : Z) : N * bytes :=
  if 2 ^ 62 <? size src then (srcSize_wrong, [])
  else if cap <? size (frame_of src) then (dstSize_tooSmall, [])
  else (size (frame_of src), frame_of src).

Definition getFrameContentSize (src : bytes) : N :=
  match src with
  | [] => ZSTD_CONTENTSIZE_ERROR
  | t :: rest =>
      if Byte.to_N t =? 1 then
        if size rest <? 8 then ZSTD_CONTENTSIZE_ERROR
        else of_le (firstn 8 rest)
      else if Byte.to_N t =? 2 then ZSTD_CONTENTSIZE_UNKNOWN
      else ZSTD_CONTENTSIZE_ERROR
  end.

(** Where a decoder stands inside a frame. *)
Inductive dstate : Type :=
| AwaitTag
| AwaitSize (have : bytes)
| Body (todo : N)
| AwaitChunk
| Chunk (todo : N).

Definition between_frames (st : dstate) : bool :=
  match st with AwaitTag => true | _ => false end.

(** What follows the eight bytes of the content size. *)
Definition after_size (n : N) : dstate := if n =? 0 then AwaitTag else Body n.

(** One byte of input: the next state and the bytes it yields, or [None]
    on a byte no frame can have there. *)
Definition decode_byte (st : dstate) (b : byte) : option (dstate * bytes) :=
  match st with
  | AwaitTag =>
      if Byte.to_N b =? 1 then Some (AwaitSize [], [])
      else if Byte.to_N b =? 2 then Some (AwaitChunk, [])
      else None
  | AwaitSize have =>
      let have := have ++ [b] in
      if size have =? 8
      then Some (after_size (of_le have), [])
      else Some (AwaitSize have, [])
  | Body todo => Some (if todo =? 1 then AwaitTag else Body (todo - 1), [b])
  | AwaitChunk =>
      Some (if Byte.to_N b =? 0 then AwaitTag else Chunk (Byte.to_N b), [])
  | Chunk todo => Some (if todo =? 1 then AwaitChunk else Chunk (todo - 1), [b])
  end.

Fixpoint decode (st : dstate) (src : bytes) : option (dstate * bytes) :=
  match src with
  | [] => Some (st, [])
  | b :: src =>
      match decode_byte st b with
      | None => None
      | Some (st, out) =>
          match decode st src with
          | None => None
          | Some (st, more) => Some (st, out ++ more)
          end
      end
  end.

Definition decompress (cap : N) (src : bytes) : N * bytes :=
  match decode AwaitTag src with
  | None => (prefix_unknown, [])
  | Some (st, out) =>
      if negb (between_frames st) then (srcSize_wrong, [])
      else if cap <? size out then (dstSize_tooSmall, [])
      else (size out, out)
  end.

(** Streaming decompression takes as many bytes as the output buffer has
    room for; it returns 0 exactly when a frame has just been completed. *)
Definition decompressStream (st : dstate) (cap : N) (src : bytes) : StreamRet dstate :=
  let taken := firstn (N.to_nat cap) src in
  match decode st taken with
  | None => mkStreamRet st prefix_unknown 0 []
  | Some (st, out) =>
      mkStreamRet st (if between_frames st then 0 else 1) (size taken) out
  end.

(** Streaming compression: the context records whether the tag was
    written. *)
Definition opening (started : bool) : bytes :=
  if started then [] else [tag_streamed].

Definition compressStream2 (started : bool) (cap : N) (src : bytes)
    (directive : ZSTD_EndDirective) : StreamRet bool :=
  let taken := firstn 255 src in
  let chunk :=
    match taken with [] => [] | _ => byte.of_Z (Z.of_N (size taken)) :: taken end in
  let closing :=
    match directive with
    | ZSTD_e_end => if size taken =? size src then [Byte.x00] else []
    | _ => []
    end in
  if cap <? 258 then mkStreamRet started dstSize_tooSmall 0 []
  else mkStreamRet true 0 (size taken) (opening started ++ chunk ++ closing).

Definition endStream (started : bool) (cap : N) : StreamRet bool :=
  if cap <? 2 then mkStreamRet started dstSize_tooSmall 0 []
  else mkStreamRet true 0 0 (opening started ++ [Byte.x00]).

Definition codec (max_size : N) : Externals := {|
  string_max_size := max_size;
  ZSTD_getErrorName := getErrorName;
  ZSTD_compressBound := compressBound;
  ZSTD_compress := compress;
  ZSTD_getFrameContentSize := getFrameContentSize;
  ZSTD_decompress := decompress;
  CCtx := bool;
  DCtx := dstate;
  fresh_CCtx := false;
  fresh_DCtx := AwaitTag;
  ZSTD_compressCCtx := fun _ => compress;
  ZSTD_decompressDCtx := fun _ => decompress;
  ZSTD_CStreamOutSize := 131591;
  ZSTD_DStreamOutSize := 131072;
  ZSTD_compressStream2 := compressStream2;
  ZSTD_compressStream := fun c cap src => compressStream2 c cap src ZSTD_e_continue;
  ZSTD_endStream := endStream;
  ZSTD_decompressStream := decompressStream
|}.

(** The codec on a 64-bit libstdc++. *)
Definition zstd : Externals := codec (2 ^ 62 - 1).

End Reference.

(** ** Sample data *)

Definition bytes_of (s : string) : bytes := list_byte_of_string s.

(** A world without contexts in which eight can be created. *)
Definition an_empty_world : World := mkWorld 0 [] [] 8.

(** A stream over [s] in its initial state, with the default (empty)
    exception mask. *)
Definition a_stream (s : bytes) : istream := mkIstream s goodbit goodbit.

(** The same after [input.exceptions(std::ios::failbit)]. *)
Definition a_throwing_stream (s : bytes) : istream :=
  mkIstream s goodbit (mkIostate false false true).

Definition hello : bytes := bytes_of "hello".

(** The one-shot frame of [hello], and the same without its last two
    bytes. *)
Definition hello_frame : bytes := Reference.frame_of hello.
Definition cut_frame : bytes := firstn 12 hello_frame.

(** A streamed frame holding [hello]: no content size in its header. *)
Definition streamed_frame : bytes :=
  Reference.tag_streamed :: Byte.x05 :: hello ++ [Byte.x00].

(** A header announcing [2^64 - 3] bytes, the largest content size that is
    not a sentinel. *)
Definition oversized_header : bytes :=
  Reference.tag_sized :: Reference.le64 (2 ^ 64 - 3).

(** A byte that starts no frame. *)
Definition garbage : bytes := [Byte.x07].


(** A world in which the context 0 is live and four more can be created,
    and one in which none can. *)
Definition a_busy_world : World := mkWorld 1 [0%nat] [] 4.
Definition an_exhausted_world : World := mkWorld 0 [] [] 0.

(** A stream over [s] on which an earlier operation failed. *)
Definition a_failed_stream (s : bytes) : istream :=
  mkIstream s (mkIostate false false true) goodbit.

(** A predicate on requests that accepts them all. *)
Definition accept_all (req : HttpRequest) : bool := true.

(** Requests carrying the frame of [hello] and a streamed frame. *)
Definition a_post : HttpRequest := mkRequest Post hello_frame [].
Definition a_get : HttpRequest := mkRequest (OtherMethod 0) hello_frame [].
Definition a_streamed_post : HttpRequest := mkRequest Post streamed_frame [].

(** A plain-text response of 2000 bytes. *)
Definition a_long_text : HttpResponse :=
  mkResponse CT_TEXT_PLAIN (repeat Byte.x61 2000) [("Server", "drogon")%string].

(** * Properties *)

(** ** Strings and buffers *)

Section Buffers.
Context {X : Externals}.

Lemma size_cons (b : byte) (s : bytes) : size (b :: s) = 1 + size s.
Proof. unfold size. cbn [List.length]. lia. Qed.

Lemma size_app (s t : bytes) : size (s ++ t) = size s + size t.
Proof. unfold size. rewrite length_app. lia. Qed.

Lemma new_string_size (n : N) (s : bytes) :
  new_string n = Some s -> size s = n.
Proof.
  unfold new_string, size. intros H.
  destruct (string_max_size <? n); [discriminate|].
  injection H as <-. rewrite repeat_length. lia.
Qed.

Lemma new_string_some (n : N) :
  n <= string_max_size -> new_string n = Some (repeat Byte.x00 (N.to_nat n)).
Proof.
  unfold new_string. intros H.
  destruct (N.ltb_spec string_max_size n); [lia|reflexivity].
Qed.

Lemma new_string_none (n : N) :
  string_max_size < n -> new_string n = None.
Proof.
  unfold new_string. intros H.
  destruct (N.ltb_spec string_max_size n); [reflexivity|lia].
Qed.

(** Trimming the buffer to what the primitive wrote gives what it wrote. *)
Lemma resize_store (written buf : bytes) :
  size written <= string_max_size ->
  resize (store written buf) (size written) = Some written.
Proof.
  unfold resize, store, size. intros H.
  destruct (N.ltb_spec string_max_size (N.of_nat (List.length written))); [lia|].
  rewrite Nat2N.id, firstn_app, firstn_all, Nat.sub_diag, firstn_O, app_nil_r.
  rewrite length_app.
  replace (List.length written - (List.length written + _))%nat with 0%nat by lia.
  simpl. now rewrite app_nil_r.
Qed.

Lemma resize_store_inv (written buf r : bytes) :
  resize (store written buf) (size written) = Some r -> r = written.
Proof.
  intros H.
  assert (Hle : size written <= string_max_size).
  { unfold resize in H.
    destruct (N.ltb_spec string_max_size (size written)); [discriminate|lia]. }
  rewrite (resize_store written buf Hle) in H. congruence.
Qed.

Lemma resize_size (s r : bytes) (n : N) :
  resize s n = Some r -> size r = n.
Proof.
  unfold resize, size. intros H.
  destruct (string_max_size <? n); [discriminate|].
  injection H as <-.
  rewrite length_app, repeat_length, length_firstn. lia.
Qed.

End Buffers.

(** ** One-shot compression and decompression *)

Section OneShotFacts.
Context {X : Externals}.

(** A successful [compressData] returns exactly the bytes [ZSTD_compress]
    wrote for the bound it was given. *)
Lemma compressData_returned (P F : bytes) :
  compress_within_capacity X ->
  compressData P = Returned F ->
  ZSTD_isError (fst (ZSTD_compress (ZSTD_compressBound (size P)) P COMPRESSION_LEVEL))
  = false
  /\ F = snd (ZSTD_compress (ZSTD_compressBound (size P)) P COMPRESSION_LEVEL).
Proof.
  intros Hfit. unfold compressData.
  destruct (new_string (ZSTD_compressBound (size P))) as [buf|]; [|discriminate].
  specialize (Hfit (ZSTD_compressBound (size P)) P COMPRESSION_LEVEL).
  destruct (ZSTD_compress (ZSTD_compressBound (size P)) P COMPRESSION_LEVEL)
    as [cSize written]; simpl in *.
  destruct (ZSTD_isError cSize); [discriminate|].
  destruct (Hfit eq_refl) as [Hsize _]. rewrite <- Hsize.
  destruct (resize (store written buf) (size written)) as [r|] eqn:Hr; [|discriminate].
  intros [= <-]. split; [reflexivity|]. now apply resize_store_inv in Hr.
Qed.

(** The bound is the capacity handed to [ZSTD_compress]: a primitive that
    stays within the capacity it is given makes every frame returned by
    [compressData] fit the bound. *)
Lemma compressed_size_within_capacity (P F : bytes) :
  compress_within_capacity X ->
  compressData P = Returned F ->
  size F <= ZSTD_compressBound (size P).
Proof.
  intros Hfit H.
  destruct (compressData_returned P F Hfit H) as [Hok ->].
  destruct (Hfit _ _ _ Hok) as [-> Hcap]. exact Hcap.
Qed.


(** C7.  The content size read from the header of a frame returned by
    [compressData] is the length of the payload, and it is neither of the
    two sentinels. *)
Theorem frame_content_size_is_payload_length (P F : bytes) :
  string_sizes_are_plain X ->
  compress_within_capacity X ->
  frames_carry_content_size X ->
  size P <= string_max_size ->
  compressData P = Returned F ->
  ZSTD_getFrameContentSize F = size P
  /\ ZSTD_getFrameContentSize F <> ZSTD_CONTENTSIZE_UNKNOWN
  /\ ZSTD_getFrameContentSize F <> ZSTD_CONTENTSIZE_ERROR.
Proof.
  intros Hmax Hfit Hhdr HP H.
  destruct (compressData_returned P F Hfit H) as [Hok ->].
  rewrite (Hhdr _ _ _ Hok).
  unfold string_sizes_are_plain, ZSTD_CONTENTSIZE_UNKNOWN, ZSTD_CONTENTSIZE_ERROR,
    ZSTD_error_maxCode in *.
  repeat split; lia.
Qed.

(** C1.  Decompressing what [compressData] returned gives the payload
    back. *)
Theorem decompress_compress_roundtrip (P F : bytes) :
  string_sizes_are_plain X ->
  compress_within_capacity X ->
  frames_carry_content_size X ->
  frames_decode X ->
  size P <= string_max_size ->
  compressData P = Returned F ->
  decompressData F = Returned P.
Proof.
  intros Hmax Hfit Hhdr Hdec HP H.
  destruct (compressData_returned P F Hfit H) as [Hok ->].
  unfold decompressData. rewrite (Hhdr _ _ _ Hok), (Hdec _ _ _ Hok).
  unfold string_sizes_are_plain, ZSTD_error_maxCode in Hmax.
  destruct (N.eqb_spec (size P) ZSTD_CONTENTSIZE_ERROR) as [E|_];
    [unfold ZSTD_CONTENTSIZE_ERROR in E; lia|].
  destruct (N.eqb_spec (size P) ZSTD_CONTENTSIZE_UNKNOWN) as [E|_];
    [unfold ZSTD_CONTENTSIZE_UNKNOWN in E; lia|].
  simpl. rewrite (new_string_some _ HP).
  unfold ZSTD_isError, ZSTD_error_maxCode.
  destruct (N.ltb_spec (2 ^ 64 - 120) (size P)); [lia|].
  now rewrite (resize_store P _ HP).
Qed.

End OneShotFacts.

(** ** Contexts *)

Lemma create_succeeds (w : World) :
  ctx_budget w <> 0%nat ->
  ZSTD_createCtx w = (Some (next_handle w), acquired w).
Proof.
  unfold ZSTD_createCtx. destruct (ctx_budget w); [congruence|reflexivity].
Qed.

Lemma create_fails (w : World) :
  ctx_budget w = 0%nat -> ZSTD_createCtx w = (None, w).
Proof. unfold ZSTD_createCtx. now intros ->. Qed.

(** Creating a context and releasing it leaves the live contexts as they
    were and adds exactly one release of the new handle. *)
Lemma release_after_acquire (w : World) :
  tidy w ->
  live (ZSTD_freeCtx (next_handle w) (acquired w)) = live w
  /\ released (ZSTD_freeCtx (next_handle w) (acquired w)) = next_handle w :: released w
  /\ count_occ Nat.eq_dec (released (ZSTD_freeCtx (next_handle w) (acquired w)))
       (next_handle w) = 1%nat.
Proof.
  intros [Hlive Hrel]. cbn [ZSTD_freeCtx acquired live released next_handle].
  repeat split.
  - cbn [remove]. destruct (Nat.eq_dec (next_handle w) (next_handle w)); [|congruence].
    apply notin_remove. intros Hin. specialize (Hlive _ Hin). lia.
  - rewrite count_occ_cons_eq by reflexivity. f_equal.
    apply count_occ_not_In. intros Hin. specialize (Hrel _ Hin). lia.
Qed.

(** A header with a usable content size is neither sentinel. *)
Ltac not_a_sentinel data :=
  destruct (N.eqb_spec (ZSTD_getFrameContentSize data) ZSTD_CONTENTSIZE_ERROR);
    [contradiction|];
  destruct (N.eqb_spec (ZSTD_getFrameContentSize data) ZSTD_CONTENTSIZE_UNKNOWN);
    [contradiction|];
  cbn [orb].

Section VariantFacts.
Context {X : Externals}.

(** With a context at hand, [advancedCompressData] ends as [compressData]
    does. *)
Lemma advancedCompressData_outcome (data : bytes) (w : World) :
  explicit_contexts_agree X ->
  ctx_budget w <> 0%nat ->
  fst (advancedCompressData data w) = compressData data.
Proof.
  intros [Hc _] Hw. unfold advancedCompressData, compressData, ZSTD_createCCtx.
  rewrite (create_succeeds w Hw).
  destruct (new_string (ZSTD_compressBound (size data))) as [buf|] eqn:Hbuf;
    [|reflexivity].
  rewrite (new_string_size _ _ Hbuf), Hc.
  destruct (ZSTD_compress (ZSTD_compressBound (size data)) data COMPRESSION_LEVEL)
    as [cSize written].
  destruct (ZSTD_isError cSize); [reflexivity|].
  now destruct (resize (store written buf) cSize).
Qed.

(** With a context at hand and a content size in the header,
    [advancedDecompressData] ends as [decompressData] does. *)
Lemma advancedDecompressData_outcome (data : bytes) (w : World) :
  explicit_contexts_agree X ->
  ctx_budget w <> 0%nat ->
  ZSTD_getFrameContentSize data <> ZSTD_CONTENTSIZE_ERROR ->
  ZSTD_getFrameContentSize data <> ZSTD_CONTENTSIZE_UNKNOWN ->
  fst (advancedDecompressData data w) = decompressData data.
Proof.
  intros [_ Hd] Hw He Hu.
  unfold advancedDecompressData, decompressData, ZSTD_createDCtx.
  rewrite (create_succeeds w Hw). not_a_sentinel data.
  destruct (new_string (ZSTD_getFrameContentSize data)) as [buf|]; [|reflexivity].
  rewrite Hd.
  destruct (ZSTD_decompress (ZSTD_getFrameContentSize data) data) as [dSize written].
  destruct (ZSTD_isError dSize); [reflexivity|].
  now destruct (resize (store written buf) dSize).
Qed.

(** Both decompression functions throw on a header without a usable
    content size. *)
Lemma decompressData_rejects (data : bytes) :
  ZSTD_getFrameContentSize data = ZSTD_CONTENTSIZE_ERROR
  \/ ZSTD_getFrameContentSize data = ZSTD_CONTENTSIZE_UNKNOWN ->
  decompressData data = Threw (runtime_error "Invalid compressed data").
Proof.
  intros H. unfold decompressData.
  destruct H as [-> | ->]; reflexivity.
Qed.

Lemma advancedDecompressData_rejects (data : bytes) (w : World) :
  ctx_budget w <> 0%nat ->
  ZSTD_getFrameContentSize data = ZSTD_CONTENTSIZE_ERROR
  \/ ZSTD_getFrameContentSize data = ZSTD_CONTENTSIZE_UNKNOWN ->
  advancedDecompressData data w =
  (Threw (runtime_error
            (if ZSTD_getFrameContentSize data =? ZSTD_CONTENTSIZE_ERROR
             then "Invalid data for decompression"
             else "Original size unknown")),
   ZSTD_freeDCtx (next_handle w) (acquired w)).
Proof.
  intros Hw H. unfold advancedDecompressData, ZSTD_createDCtx.
  rewrite (create_succeeds w Hw).
  destruct H as [-> | ->]; reflexivity.
Qed.

(** C9.  With a context at hand and the explicit-context entry points
    computing what the plain ones compute, [advancedCompressData] ends
    exactly as [compressData] does on every input, and
    [advancedDecompressData] returns a payload exactly when
    [decompressData] returns it. *)
Theorem basic_and_advanced_agree (data : bytes) (w : World) :
  explicit_contexts_agree X ->
  ctx_budget w <> 0%nat ->
  fst (advancedCompressData data w) = compressData data
  /\ (forall p, fst (advancedDecompressData data w) = Returned p
                <-> decompressData data = Returned p).
Proof.
  intros Hagree Hw. split; [now apply advancedCompressData_outcome|].
  intros p.
  destruct (N.eq_dec (ZSTD_getFrameContentSize data) ZSTD_CONTENTSIZE_ERROR) as [He|He].
  { rewrite (advancedDecompressData_rejects data w Hw (or_introl He)).
    rewrite (decompressData_rejects data (or_introl He)). simpl.
    split; discriminate. }
  destruct (N.eq_dec (ZSTD_getFrameContentSize data) ZSTD_CONTENTSIZE_UNKNOWN) as [Hu|Hu].
  { rewrite (advancedDecompressData_rejects data w Hw (or_intror Hu)).
    rewrite (decompressData_rejects data (or_intror Hu)). simpl.
    split; discriminate. }
  now rewrite (advancedDecompressData_outcome data w Hagree Hw He Hu).
Qed.

(** C5, as the code has it.  A header whose content size is unknown or
    invalid makes both functions throw.  [decompressData] throws the same
    [runtime_error] in the two cases; [advancedDecompressData] releases its
    context and tells them apart by the message. *)
Theorem unsized_and_invalid_frames_are_rejected (data : bytes) (w : World) :
  ctx_budget w <> 0%nat ->
  ZSTD_getFrameContentSize data = ZSTD_CONTENTSIZE_ERROR
  \/ ZSTD_getFrameContentSize data = ZSTD_CONTENTSIZE_UNKNOWN ->
  decompressData data = Threw (runtime_error "Invalid compressed data")
  /\ fst (advancedDecompressData data w) =
     Threw (runtime_error
              (if ZSTD_getFrameContentSize data =? ZSTD_CONTENTSIZE_ERROR
               then "Invalid data for decompression"
               else "Original size unknown")).
Proof.
  intros Hw H. split; [now apply decompressData_rejects|].
  now rewrite (advancedDecompressData_rejects data w Hw H).
Qed.




(** The handle created for a call is released once on the paths the code
    handles itself: this is the world [advancedCompressData] leaves when
    the output buffer could be allocated. *)
Lemma advancedCompressData_releases (data : bytes) (w : World) :
  ctx_budget w <> 0%nat ->
  ZSTD_compressBound (size data) <= string_max_size ->
  snd (advancedCompressData data w) = ZSTD_freeCCtx (next_handle w) (acquired w).
Proof.
  intros Hw Hb. unfold advancedCompressData, ZSTD_createCCtx.
  rewrite (create_succeeds w Hw), (new_string_some _ Hb).
  destruct (ZSTD_compressCCtx _ _ _ _) as [cSize written].
  destruct (ZSTD_isError cSize); [reflexivity|].
  now destruct (resize _ cSize).
Qed.

(** C8, where the code misses it.  When the header announces more bytes
    than a [std::string] can hold, the constructor of the output string
    throws between [ZSTD_createDCtx] and [ZSTD_freeDCtx]:
    [advancedDecompressData] is left with the context still live and no
    release performed. *)
Theorem advancedDecompressData_leaks_context (data : bytes) (w : World) :
  ctx_budget w <> 0%nat ->
  string_max_size < ZSTD_getFrameContentSize data ->
  ZSTD_getFrameContentSize data < ZSTD_CONTENTSIZE_ERROR ->
  fst (advancedDecompressData data w) = Threw length_error
  /\ live (snd (advancedDecompressData data w)) = next_handle w :: live w
  /\ released (snd (advancedDecompressData data w)) = released w.
Proof.
  intros Hw Hbig Hlt. unfold advancedDecompressData, ZSTD_createDCtx.
  rewrite (create_succeeds w Hw).
  destruct (N.eqb_spec (ZSTD_getFrameContentSize data) ZSTD_CONTENTSIZE_ERROR); [lia|].
  destruct (N.eqb_spec (ZSTD_getFrameContentSize data) ZSTD_CONTENTSIZE_UNKNOWN) as [E|_].
  { unfold ZSTD_CONTENTSIZE_UNKNOWN, ZSTD_CONTENTSIZE_ERROR in *. lia. }
  rewrite (new_string_none _ Hbig). repeat split.
Qed.

End VariantFacts.

(** ** The reading loop *)

Section LoopFacts.
Context {C : Type}.
Variable primitive : C -> N -> bytes -> StreamRet C.
Variable bufferSize : N.

(** The loops leave with [CodecFailed] only on a value of the primitive
    that [ZSTD_isError] flags, and that value is in the log. *)
Lemma consume_failure (fuel : nat) (chunk : bytes) (pos : N) (p q : Progress C) (ret : N) :
  consume primitive bufferSize fuel chunk pos p = CodecFailed ret q ->
  ZSTD_isError ret = true /\ In ret (log q).
Proof.
  revert pos p. induction fuel as [|fuel IH]; intros pos p; simpl.
  - destruct (pos <? size chunk); discriminate.
  - destruct (pos <? size chunk); [|discriminate].
    destruct (ZSTD_isError (code (primitive (ctx p) bufferSize
                                    (skipn (N.to_nat pos) chunk)))) eqn:E.
    + intros [= <- <-]. split; [exact E|now left].
    + apply IH.
Qed.

Lemma pump_failure (inner fuel : nat) (input : istream) (p q : Progress C) (ret : N) :
  pump primitive bufferSize inner fuel input p = CodecFailed ret q ->
  ZSTD_isError ret = true /\ In ret (log q).
Proof.
  revert input p. induction fuel as [|fuel IH]; intros input p; simpl.
  - destruct (good input); discriminate.
  - destruct (good input); [|discriminate].
    destruct (read input bufferSize) as [[chunk input']|]; [|discriminate].
    destruct (consume primitive bufferSize inner chunk 0 p) as [p'|ret' p'|p'|] eqn:E.
    + apply IH.
    + intros [= <- <-]. exact (consume_failure _ _ _ _ _ _ E).
    + discriminate.
    + discriminate.
Qed.

(** A stream that throws nothing never makes the loop leave by
    [ReadThrew]. *)
Lemma read_quiet (input : istream) (n : N) :
  exceptions input = goodbit ->
  exists chunk input',
    read input n = Some (chunk, input') /\ exceptions input' = goodbit.
Proof.
  intros Hq. unfold read, raises. rewrite Hq. simpl.
  rewrite !andb_false_r. simpl.
  destruct (good input); [destruct (_ <? n)|]; eauto.
Qed.

Lemma consume_never_reads (fuel : nat) (chunk : bytes) (pos : N) (p q : Progress C) :
  consume primitive bufferSize fuel chunk pos p <> ReadThrew q.
Proof.
  revert pos p. induction fuel as [|fuel IH]; intros pos p; simpl.
  - destruct (pos <? size chunk); discriminate.
  - destruct (pos <? size chunk); [|discriminate].
    destruct (ZSTD_isError _); [discriminate|apply IH].
Qed.

Lemma pump_quiet (inner fuel : nat) (input : istream) (p q : Progress C) :
  exceptions input = goodbit ->
  pump primitive bufferSize inner fuel input p <> ReadThrew q.
Proof.
  revert input p. induction fuel as [|fuel IH]; intros input p Hq; simpl.
  - destruct (good input); discriminate.
  - destruct (good input); [|discriminate].
    destruct (read_quiet input bufferSize Hq) as (chunk & input' & -> & Hq').
    destruct (consume primitive bufferSize inner chunk 0 p) as [p'|ret' p'|p'|] eqn:E;
      try discriminate.
    + now apply IH.
    + exfalso. exact (consume_never_reads _ _ _ _ _ E).
Qed.

(** *** Termination *)

Hypothesis progress : makes_progress primitive bufferSize.

Lemma skipn_nonempty (chunk : bytes) (pos : N) :
  pos < size chunk -> skipn (N.to_nat pos) chunk <> [].
Proof.
  unfold size. intros H E.
  apply (f_equal (@List.length byte)) in E. rewrite length_skipn in E. simpl in E. lia.
Qed.

Lemma consume_terminates (fuel : nat) (chunk : bytes) (pos : N) (p : Progress C) :
  (N.to_nat (size chunk - pos) < fuel)%nat ->
  consume primitive bufferSize fuel chunk pos p <> Diverged.
Proof.
  revert pos p. induction fuel as [|fuel IH]; intros pos p Hfuel; [lia|]. simpl.
  destruct (N.ltb_spec pos (size chunk)) as [Hlt|]; [|discriminate].
  pose proof (progress (ctx p) _ (skipn_nonempty chunk pos Hlt)) as Hadv.
  destruct (ZSTD_isError (code (primitive (ctx p) bufferSize
                                  (skipn (N.to_nat pos) chunk)))); [discriminate|].
  specialize (Hadv eq_refl). apply IH. lia.
Qed.

Lemma pump_terminates (inner fuel : nat) (input : istream) (p : Progress C) :
  0 < bufferSize ->
  (List.length (pending input) < inner)%nat ->
  (List.length (pending input) + 1 < fuel)%nat ->
  pump primitive bufferSize inner fuel input p <> Diverged.
Proof.
  intros Hbuf. revert input p.
  induction fuel as [|fuel IH]; intros input p Hinner Hfuel; [lia|]. simpl.
  destruct (good input) eqn:Hgood; [|discriminate].
  unfold read. rewrite Hgood.
  set (got := firstn (N.to_nat bufferSize) (pending input)).
  assert (Hgot : (List.length got <= List.length (pending input))%nat).
  { subst got. rewrite length_firstn. lia. }
  assert (Hcons : forall q, consume primitive bufferSize inner got 0 q <> Diverged).
  { intros q. apply consume_terminates. unfold size. lia. }
  destruct (N.ltb_spec (size got) bufferSize) as [Hshort|Hfull].
  - destruct (raises _ _); [discriminate|].
    specialize (Hcons p).
    destruct (consume primitive bufferSize inner got 0 p) as [p'|ret' p'|p'|];
      try discriminate; [|contradiction].
    destruct fuel; simpl; unfold good; simpl; rewrite orb_true_r; discriminate.
  - specialize (Hcons p).
    destruct (consume primitive bufferSize inner got 0 p) as [p'|ret' p'|p'|];
      try discriminate; [|contradiction].
    assert (Hlen : (List.length (skipn (N.to_nat bufferSize) (pending input))
                    < List.length (pending input))%nat).
    { rewrite length_skipn. subst got. unfold size in Hfull.
      rewrite length_firstn in Hfull. lia. }
    apply IH; simpl; lia.
Qed.

End LoopFacts.

(** ** Streaming compression and decompression *)

Section StreamingFacts.
Context {X : Externals}.

Lemma compress_loop_never_returns
    (primitive : CCtx -> N -> bytes -> StreamRet CCtx)
    (fuel : nat) (input : istream) (cctx : nat) (w : World) (s : bytes) :
  result (compress_loop primitive fuel input cctx w) <> Returned s.
Proof.
  unfold compress_loop.
  destruct (pump _ _ _ _ _ _) as [p|ret p|p|]; simpl; try discriminate.
  destruct (ZSTD_isError _); discriminate.
Qed.

(** C2, where the code misses it.  None of the four streaming functions
    ever hands a string to its caller: each of them throws, or reaches its
    closing brace with the bytes it accumulated still in the local
    [output]. *)
Theorem streaming_functions_return_nothing (fuel : nat) (input : istream) (w : World)
    (s : bytes) :
  result (compressStream fuel input w) <> Returned s
  /\ result (decompressStream fuel input w) <> Returned s
  /\ result (advancedCompressStream fuel input w) <> Returned s
  /\ result (advancedDecompressStream fuel input w) <> Returned s.
Proof.
  assert (Hd : result (decompressStream fuel input w) <> Returned s).
  { unfold decompressStream.
    destruct (ZSTD_createDCtx w) as [[dctx|] w']; [|discriminate].
    destruct (pump _ _ _ _ _ _) as [p|ret p|p|]; discriminate. }
  repeat split; try exact Hd.
  - unfold compressStream. destruct (ZSTD_createCCtx w) as [[cctx|] w']; [|discriminate].
    apply compress_loop_never_returns.
  - unfold advancedCompressStream.
    destruct (ZSTD_createCCtx w) as [[cctx|] w']; [|discriminate].
    apply compress_loop_never_returns.
Qed.

(** Whatever [decompressStream] throws is the failure to create the
    context, an exception of the input stream, or the
    ["Decompression error: "] built from a value of [ZSTD_decompressStream]
    that [ZSTD_isError] flags. *)
Lemma decompressStream_throws_only_primitive_errors
    (fuel : nat) (input : istream) (w : World) (e : exn) :
  result (decompressStream fuel input w) = Threw e ->
  e = runtime_error "Failed to create ZSTD decompression context"
  \/ e = ios_failure
  \/ exists ret,
       In ret (returned_codes (decompressStream fuel input w))
       /\ ZSTD_isError ret = true
       /\ e = runtime_error ("Decompression error: " ++ ZSTD_getErrorName ret).
Proof.
  unfold decompressStream.
  destruct (ZSTD_createDCtx w) as [[dctx|] w']; simpl.
  - destruct (pump _ _ _ _ _ _) as [p|ret p|p|] eqn:E; simpl; try discriminate.
    + intros [= <-]. right; right. exists ret.
      destruct (pump_failure _ _ _ _ _ _ _ _ E) as [Herr Hin]. auto.
    + intros [= <-]. auto.
  - intros [= <-]. auto.
Qed.

(** C4, as the code has it.  [decompressStream] has no test for a frame
    that ends early.  Whatever it throws is the failure to create the
    context, an exception of the input stream, or the
    ["Decompression error: "] built from a value of [ZSTD_decompressStream]
    that [ZSTD_isError] flags.  When a context was created, the stream
    throws nothing and no value of the primitive is flagged, whatever the
    latest of them says about the frame, nothing is thrown: control
    reaches the closing brace of the function. *)
Theorem decompressStream_has_no_truncation_test
    (fuel : nat) (input : istream) (w : World) :
  makes_progress ZSTD_decompressStream ZSTD_DStreamOutSize ->
  0 < ZSTD_DStreamOutSize ->
  (List.length (pending input) + 1 < fuel)%nat ->
  (forall e,
      result (decompressStream fuel input w) = Threw e ->
      e = runtime_error "Failed to create ZSTD decompression context"
      \/ e = ios_failure
      \/ exists ret,
           In ret (returned_codes (decompressStream fuel input w))
           /\ ZSTD_isError ret = true
           /\ e = runtime_error ("Decompression error: " ++ ZSTD_getErrorName ret))
  /\ (ctx_budget w <> 0%nat ->
      exceptions input = goodbit ->
      clean (returned_codes (decompressStream fuel input w)) ->
      result (decompressStream fuel input w) = FlowsOffEnd).
Proof.
  intros Hprog Hbuf Hfuel.
  split; [intros e; apply decompressStream_throws_only_primitive_errors|].
  intros Hw Hq. unfold decompressStream, ZSTD_createDCtx.
  rewrite (create_succeeds w Hw).
  pose proof (pump_terminates ZSTD_decompressStream ZSTD_DStreamOutSize Hprog
                fuel fuel input (mkProgress fresh_DCtx [] []) Hbuf) as Hterm.
  destruct (pump _ _ _ _ _ _) as [p|ret p|p|] eqn:E; simpl.
  - reflexivity.
  - intros Hall. destruct (pump_failure _ _ _ _ _ _ _ _ E) as [Herr Hin].
    unfold clean in Hall. rewrite Forall_forall in Hall.
    rewrite (Hall _ Hin) in Herr. discriminate.
  - exfalso. exact (pump_quiet _ _ _ _ _ _ _ Hq E).
  - exfalso. apply Hterm; [lia|lia|reflexivity].
Qed.

End StreamingFacts.

(** ** The response filter *)

Section FilterFacts.
Context {X : Externals}.

(** C10.  The response handed on by the filter is the incoming one with
    its body replaced by the compressed body and the header
    [Content-Encoding: zstd] added when the content type is one of the
    three, the body is longer than 1024 bytes and [compressData] returned;
    in every other case it is the incoming response, unchanged. *)
Theorem response_compressed_only_when_eligible (resp : HttpResponse) :
  ((getContentType resp = CT_APPLICATION_JSON
    \/ getContentType resp = CT_TEXT_PLAIN
    \/ getContentType resp = CT_TEXT_HTML)
   /\ 1024 < size (body resp)
   /\ exists compressed,
        compressData (body resp) = Returned compressed
        /\ doFilter_response resp =
           mkResponse (getContentType resp) compressed
             (("Content-Encoding", "zstd")%string :: headers resp))
  \/ ((~ (getContentType resp = CT_APPLICATION_JSON
          \/ getContentType resp = CT_TEXT_PLAIN
          \/ getContentType resp = CT_TEXT_HTML)
       \/ size (body resp) <= 1024
       \/ forall compressed, compressData (body resp) <> Returned compressed)
      /\ doFilter_response resp = resp).
Proof.
  unfold doFilter_response, shouldCompress.
  destruct (N.ltb_spec 1024 (size (body resp))) as [Hlong|Hshort].
  2: { right. rewrite andb_false_r. auto. }
  rewrite andb_true_r.
  destruct (N.eqb_spec (size (body resp)) 0) as [E|_]; [lia|]. simpl.
  destruct (getContentType resp) eqn:Hct; simpl.
  4: { right. split; [|reflexivity]. left. intros [H|[H|H]]; discriminate. }
  all: destruct (compressData (body resp)) as [c|e| |] eqn:Hc;
    [ left; split; [auto|split; [exact Hlong|exists c; split; [reflexivity|]]];
      unfold addHeader, setBody; simpl; now rewrite Hct
    | right; split; [right; right; intros c'; discriminate|reflexivity] .. ].
Qed.

End FilterFacts.

(** ** The reference codec meets the contract *)

Module ReferenceFacts.
Import Reference.

#[local] Arguments le64 : simpl never.
#[local] Arguments size : simpl never.

Lemma errors_are_errors :
  ZSTD_isError prefix_unknown = true /\ ZSTD_isError corruption_detected = true
  /\ ZSTD_isError dstSize_tooSmall = true /\ ZSTD_isError srcSize_wrong = true.
Proof. repeat split. Qed.

Lemma of_le_le64 (n : N) : n < 2 ^ 64 -> of_le (le64 n) = n.
Proof.
  intros H. unfold of_le, le64. rewrite le_combine_split.
  change (Z.of_nat 8 * 8)%Z with 64%Z.
  rewrite Z.mod_small; [apply N2Z.id|].
  change (2 ^ 64)%Z with (Z.of_N (2 ^ 64)). lia.
Qed.

Lemma length_le64 (n : N) : List.length (le64 n) = 8%nat.
Proof. apply length_le_split. Qed.

Lemma decode_cons (st : dstate) (b : byte) (src : bytes) :
  decode st (b :: src) =
  match decode_byte st b with
  | None => None
  | Some (st, out) =>
      match decode st src with
      | None => None
      | Some (st, more) => Some (st, out ++ more)
      end
  end.
Proof. reflexivity. Qed.

Lemma decode_quiet_step (st : dstate) (src : bytes) :
  match decode st src with
  | None => None
  | Some (st', more) => Some (st', [] ++ more)
  end = decode st src.
Proof. now destruct (decode st src) as [[st' more]|]. Qed.

Lemma decode_size (hdr have rest : bytes) :
  hdr <> [] ->
  (List.length have + List.length hdr = 8)%nat ->
  decode (AwaitSize have) (hdr ++ rest) = decode (after_size (of_le (have ++ hdr))) rest.
Proof.
  revert have. induction hdr as [|b hdr IH]; intros have Hne Hlen; [congruence|].
  rewrite <- app_comm_cons, decode_cons. cbn [decode_byte].
  assert (Hsz : size (have ++ [b]) = N.of_nat (List.length have + 1)).
  { unfold size. now rewrite length_app. }
  destruct hdr as [|b' hdr]; cbn [List.length] in Hlen.
  - destruct (N.eqb_spec (size (have ++ [b])) 8) as [_|Hn]; [|lia].
    cbv beta iota. apply decode_quiet_step.
  - destruct (N.eqb_spec (size (have ++ [b])) 8) as [Hn|_]; [lia|].
    cbv beta iota. rewrite decode_quiet_step, IH.
    + now rewrite <- app_assoc.
    + discriminate.
    + rewrite length_app. cbn [List.length] in *. lia.
Qed.

Lemma decode_body (src : bytes) :
  src <> [] -> decode (Body (size src)) src = Some (AwaitTag, src).
Proof.
  induction src as [|b src IH]; intros Hne; [congruence|].
  rewrite decode_cons. cbn [decode_byte]. rewrite size_cons.
  destruct src as [|b' src]; [reflexivity|].
  destruct (N.eqb_spec (1 + size (b' :: src)) 1) as [E|_].
  { rewrite size_cons in E. lia. }
  replace (1 + size (b' :: src) - 1) with (size (b' :: src)) by lia.
  rewrite IH by discriminate. reflexivity.
Qed.

Lemma decode_frame (src : bytes) :
  size src < 2 ^ 64 -> decode AwaitTag (frame_of src) = Some (AwaitTag, src).
Proof.
  intros H. unfold frame_of. rewrite decode_cons.
  change (decode_byte AwaitTag tag_sized) with (Some (AwaitSize [], @nil byte)).
  cbv beta iota. rewrite decode_quiet_step.
  rewrite (decode_size (le64 (size src)) [] src).
  - rewrite app_nil_l, (of_le_le64 _ H). unfold after_size.
    destruct (N.eqb_spec (size src) 0) as [E|E].
    + destruct src; [reflexivity|]. rewrite size_cons in E. lia.
    + apply decode_body. intros ->. now apply E.
  - intros E. apply (f_equal (@List.length byte)) in E. now rewrite length_le64 in E.
  - now rewrite length_le64.
Qed.

Lemma content_size_of_frame (src : bytes) :
  size src < 2 ^ 64 -> getFrameContentSize (frame_of src) = size src.
Proof.
  intros H. unfold frame_of, getFrameContentSize.
  change (Byte.to_N tag_sized =? 1) with true. cbv iota.
  destruct (N.ltb_spec (size (le64 (size src) ++ src)) 8) as [Hshort|_].
  { rewrite size_app in Hshort. unfold size at 1 in Hshort.
    rewrite length_le64 in Hshort. lia. }
  rewrite firstn_app, length_le64, Nat.sub_diag, firstn_O, app_nil_r.
  rewrite <- (length_le64 (size src)) at 1. rewrite firstn_all.
  now apply of_le_le64.
Qed.

Lemma decompress_frame (src : bytes) :
  size src < 2 ^ 64 -> decompress (size src) (frame_of src) = (size src, src).
Proof.
  intros H. unfold decompress. rewrite (decode_frame src H).
  cbn [between_frames negb]. rewrite N.ltb_irrefl. reflexivity.
Qed.

Lemma compress_cases (cap : N) (src : bytes) (level : Z) :
  ZSTD_isError (fst (compress cap src level)) = false ->
  compress cap src level = (size (frame_of src), frame_of src)
  /\ size src < 2 ^ 64 /\ size (frame_of src) <= cap.
Proof.
  unfold compress.
  destruct (N.ltb_spec (2 ^ 62) (size src)); [discriminate|].
  destruct (N.ltb_spec cap (size (frame_of src))); [discriminate|].
  intros _. repeat split; [|assumption].
  assert (2 ^ 62 < 2 ^ 64) by reflexivity. lia.
Qed.

(** The bound of [zstd.h] leaves room for the nine bytes the reference
    frame adds, so compressing into a buffer of that size never fails for
    lack of room. *)
Lemma compressBound_suffices (src : bytes) :
  size (frame_of src) <= compressBound (size src).
Proof.
  unfold frame_of. rewrite size_cons, size_app. unfold size at 1.
  rewrite length_le64. unfold compressBound. rewrite !N.shiftr_div_pow2.
  change (2 ^ 8) with 256. change (2 ^ 11) with 2048. change (N.of_nat 8) with 8.
  assert (Hhigh : 100000 < size src -> 9 <= size src / 256).
  { intros H. apply N.div_le_lower_bound; lia. }
  assert (Hlow : size src <= 100000 -> 9 <= (131072 - size src) / 2048).
  { intros H. apply N.div_le_lower_bound; lia. }
  generalize dependent (size src / 256).
  generalize dependent ((131072 - size src) / 2048).
  intros low Hlow high Hhigh.
  destruct (N.ltb_spec (size src) 131072); lia.
Qed.

Lemma compress_into_bound (src : bytes) (level : Z) :
  size src <= 2 ^ 62 ->
  compress (compressBound (size src)) src level = (size (frame_of src), frame_of src).
Proof.
  intros H. unfold compress.
  destruct (N.ltb_spec (2 ^ 62) (size src)); [lia|].
  pose proof (compressBound_suffices src).
  destruct (N.ltb_spec (compressBound (size src)) (size (frame_of src))); [lia|].
  reflexivity.
Qed.

Section Contract.
Variable max_size : N.

Lemma meets_compress_within_capacity :
  compress_within_capacity (codec max_size).
Proof.
  intros cap src level H.
  change (ZSTD_isError (fst (compress cap src level)) = false) in H.
  change (size (snd (compress cap src level)) = fst (compress cap src level)
          /\ fst (compress cap src level) <= cap).
  destruct (compress_cases cap src level H) as (-> & _ & Hcap). auto.
Qed.


Lemma meets_frames_carry_content_size :
  frames_carry_content_size (codec max_size).
Proof.
  intros cap src level H.
  change (ZSTD_isError (fst (compress cap src level)) = false) in H.
  change (getFrameContentSize (snd (compress cap src level)) = size src).
  destruct (compress_cases cap src level H) as (-> & Hsrc & _).
  now apply content_size_of_frame.
Qed.

Lemma meets_frames_decode : frames_decode (codec max_size).
Proof.
  intros cap src level H.
  change (ZSTD_isError (fst (compress cap src level)) = false) in H.
  change (decompress (size src) (snd (compress cap src level)) = (size src, src)).
  destruct (compress_cases cap src level H) as (-> & Hsrc & _).
  now apply decompress_frame.
Qed.




Lemma meets_explicit_contexts_agree :
  explicit_contexts_agree (codec max_size).
Proof. split; reflexivity. Qed.

Lemma meets_makes_progress (cap : N) :
  0 < cap -> makes_progress decompressStream cap.
Proof.
  intros Hcap st src Hne. unfold decompressStream.
  destruct (decode st (firstn (N.to_nat cap) src)) as [[st' out]|]; [|discriminate].
  intros _. cbn [advance]. unfold size. rewrite length_firstn.
  destruct src; [congruence|]. cbn [List.length]. lia.
Qed.

End Contract.

Lemma zstd_string_sizes_are_plain : string_sizes_are_plain zstd.
Proof. unfold string_sizes_are_plain. simpl. discriminate. Qed.

End ReferenceFacts.

(** * Concrete runs *)

Module Runs.
Import ReferenceFacts.

(** C1 on [hello]. *)
Lemma decompress_compress_roundtrip_hello :
  size hello <= @string_max_size Reference.zstd
  /\ @compressData Reference.zstd hello = Returned hello_frame
  /\ @decompressData Reference.zstd hello_frame = Returned hello.
Proof.
  assert (Hsize : size hello <= @string_max_size Reference.zstd) by (vm_compute; discriminate).
  assert (Hc : @compressData Reference.zstd hello = Returned hello_frame) by reflexivity.
  split; [exact Hsize|split; [exact Hc|]].
  exact (@decompress_compress_roundtrip Reference.zstd hello hello_frame
           zstd_string_sizes_are_plain
           (meets_compress_within_capacity _)
           (meets_frames_carry_content_size _)
           (meets_frames_decode _) Hsize Hc).
Defined.

(** The empty payload: a frame of nine bytes that decompresses to
    nothing. *)
Example empty_payload_roundtrip :
  @compressData Reference.zstd [] = Returned (Reference.frame_of [])
  /\ size (Reference.frame_of []) = 9
  /\ @decompressData Reference.zstd (Reference.frame_of []) = Returned [].
Proof. repeat split. Qed.


(** C7 on [hello]. *)
Lemma frame_content_size_hello :
  @compressData Reference.zstd hello = Returned hello_frame
  /\ @ZSTD_getFrameContentSize Reference.zstd hello_frame = 5.
Proof.
  assert (Hsize : size hello <= @string_max_size Reference.zstd) by (vm_compute; discriminate).
  assert (Hc : @compressData Reference.zstd hello = Returned hello_frame) by reflexivity.
  split; [exact Hc|].
  exact (proj1 (@frame_content_size_is_payload_length Reference.zstd hello hello_frame
                  zstd_string_sizes_are_plain
                  (meets_compress_within_capacity _)
                  (meets_frames_carry_content_size _) Hsize Hc)).
Defined.

(** C9 on [hello] and on its frame. *)
Lemma basic_and_advanced_agree_hello :
  fst (@advancedCompressData Reference.zstd hello an_empty_world) = @compressData Reference.zstd hello
  /\ (fst (@advancedDecompressData Reference.zstd hello_frame an_empty_world) = Returned hello
      <-> @decompressData Reference.zstd hello_frame = Returned hello).
Proof.
  assert (Hw : ctx_budget an_empty_world <> 0%nat) by discriminate.
  pose proof (@basic_and_advanced_agree Reference.zstd hello an_empty_world
                (meets_explicit_contexts_agree _) Hw) as Hc.
  pose proof (@basic_and_advanced_agree Reference.zstd hello_frame an_empty_world
                (meets_explicit_contexts_agree _) Hw) as Hd.
  split; [exact (proj1 Hc)|exact (proj2 Hd hello)].
Defined.

(** C5 on a streamed frame, whose header has no content size. *)
Lemma unsized_frame_is_rejected :
  @ZSTD_getFrameContentSize Reference.zstd streamed_frame = ZSTD_CONTENTSIZE_UNKNOWN
  /\ @decompressData Reference.zstd streamed_frame = Threw (runtime_error "Invalid compressed data")
  /\ fst (@advancedDecompressData Reference.zstd streamed_frame an_empty_world)
     = Threw (runtime_error "Original size unknown").
Proof.
  assert (Hw : ctx_budget an_empty_world <> 0%nat) by discriminate.
  assert (Hu : @ZSTD_getFrameContentSize Reference.zstd streamed_frame = ZSTD_CONTENTSIZE_UNKNOWN)
    by reflexivity.
  split; [exact Hu|].
  exact (@unsized_and_invalid_frames_are_rejected Reference.zstd streamed_frame an_empty_world
           Hw (or_intror Hu)).
Defined.

(** C5 as stated fails: [decompressData] throws one and the same exception
    for a frame of unknown size and for bytes that are no frame. *)
Lemma decompressData_does_not_tell_unknown_from_invalid :
  @ZSTD_getFrameContentSize Reference.zstd streamed_frame = ZSTD_CONTENTSIZE_UNKNOWN
  /\ @ZSTD_getFrameContentSize Reference.zstd garbage = ZSTD_CONTENTSIZE_ERROR
  /\ @decompressData Reference.zstd streamed_frame = @decompressData Reference.zstd garbage.
Proof. repeat split. Qed.


(** C8 on [oversized_header]: the context with handle 0 stays live and
    nothing was released. *)
Lemma advancedDecompressData_leaks_on_oversized_header :
  @ZSTD_getFrameContentSize Reference.zstd oversized_header = 2 ^ 64 - 3
  /\ fst (@advancedDecompressData Reference.zstd oversized_header an_empty_world)
     = Threw length_error
  /\ live (snd (@advancedDecompressData Reference.zstd oversized_header an_empty_world))
     = [0%nat]
  /\ released (snd (@advancedDecompressData Reference.zstd oversized_header an_empty_world))
     = [].
Proof.
  assert (Hw : ctx_budget an_empty_world <> 0%nat) by discriminate.
  assert (Hbig : @string_max_size Reference.zstd < @ZSTD_getFrameContentSize Reference.zstd oversized_header)
    by reflexivity.
  assert (Hlt : @ZSTD_getFrameContentSize Reference.zstd oversized_header < ZSTD_CONTENTSIZE_ERROR)
    by reflexivity.
  split; [reflexivity|].
  exact (@advancedDecompressData_leaks_context Reference.zstd oversized_header an_empty_world
           Hw Hbig Hlt).
Defined.

(** The streaming functions leak the same way when the stream throws:
    with [failbit] in the exception mask the [read] that meets the end of
    the input throws, and the context created before the loop stays
    live. *)
Example compressStream_leaks_when_read_throws :
  @compressStream Reference.zstd 8 (a_throwing_stream hello) an_empty_world
  = mkStreamRun (Threw ios_failure) [] [] (mkWorld 1 [0%nat] [] 7).
Proof. reflexivity. Qed.

(** Before a throw of its own the code releases the context: here after
    an error of the primitive. *)
Example context_released_before_the_throw :
  @decompressStream Reference.zstd 8 (a_stream garbage) an_empty_world
  = mkStreamRun
      (Threw (runtime_error "Decompression error: Unknown frame descriptor"))
      [] [Reference.prefix_unknown] (mkWorld 1 [] [0%nat] 7).
Proof. reflexivity. Qed.

(** A complete run on [hello]: [compressStream] has built the whole frame
    in its local [output], released the context, and reaches its closing
    brace without returning anything; so does [decompressStream] on the
    frame of [hello]. *)
Example compressStream_discards_its_output :
  @compressStream Reference.zstd 8 (a_stream hello) an_empty_world
  = mkStreamRun FlowsOffEnd streamed_frame [0; 0] (mkWorld 1 [] [0%nat] 7).
Proof. reflexivity. Qed.

Example decompressStream_discards_its_output :
  @decompressStream Reference.zstd 8 (a_stream hello_frame) an_empty_world
  = mkStreamRun FlowsOffEnd hello [0] (mkWorld 1 [] [0%nat] 7).
Proof. reflexivity. Qed.

(** On bytes that are no frame the exception carries the error of the
    primitive. *)
Lemma decompressStream_throws_on_garbage :
  result (@decompressStream Reference.zstd 8 (a_stream garbage) an_empty_world)
  = Threw (runtime_error "Decompression error: Unknown frame descriptor")
  /\ (runtime_error "Decompression error: Unknown frame descriptor"
      = runtime_error "Failed to create ZSTD decompression context"
      \/ runtime_error "Decompression error: Unknown frame descriptor" = ios_failure
      \/ exists ret,
           In ret (returned_codes
                     (@decompressStream Reference.zstd 8 (a_stream garbage) an_empty_world))
           /\ ZSTD_isError ret = true
           /\ runtime_error "Decompression error: Unknown frame descriptor"
              = runtime_error ("Decompression error: " ++ @ZSTD_getErrorName Reference.zstd ret)).
Proof.
  assert (Hr : result (@decompressStream Reference.zstd 8 (a_stream garbage) an_empty_world)
               = Threw (runtime_error "Decompression error: Unknown frame descriptor"))
    by reflexivity.
  split; [exact Hr|].
  exact (@decompressStream_throws_only_primitive_errors Reference.zstd 8 (a_stream garbage)
           an_empty_world _ Hr).
Defined.

(** C4 as stated fails: the frame of [hello] without its last two bytes is
    read to the end, the only value of the primitive is 1 (the frame is not
    complete), and [decompressStream] reaches its closing brace without
    having thrown, with the prefix ["hel"] accumulated in its local
    [output]. *)
Lemma decompressStream_accepts_a_cut_frame :
  @compressData Reference.zstd hello = Returned hello_frame
  /\ cut_frame = firstn (List.length hello_frame - 2) hello_frame
  /\ @decompressStream Reference.zstd 16 (a_stream cut_frame) an_empty_world
     = mkStreamRun FlowsOffEnd (bytes_of "hel") [1] (mkWorld 1 [] [0%nat] 7).
Proof. repeat split. Qed.

(** C4 on the same cut frame: the only value of the primitive is 1, no
    error, and control reaches the closing brace. *)
Lemma decompressStream_reaches_the_end_on_a_cut_frame :
  returned_codes (@decompressStream Reference.zstd 16 (a_stream cut_frame) an_empty_world)
  = [1]
  /\ result (@decompressStream Reference.zstd 16 (a_stream cut_frame) an_empty_world)
     = FlowsOffEnd.
Proof.
  assert (HD : 0 < @ZSTD_DStreamOutSize Reference.zstd) by reflexivity.
  assert (Hfuel : (List.length (pending (a_stream cut_frame)) + 1 < 16)%nat)
    by (vm_compute; repeat constructor).
  assert (Hw : ctx_budget an_empty_world <> 0%nat) by discriminate.
  assert (Hcodes : returned_codes (@decompressStream Reference.zstd 16
                                     (a_stream cut_frame) an_empty_world) = [1])
    by reflexivity.
  assert (Hclean : clean (returned_codes (@decompressStream Reference.zstd 16
                                            (a_stream cut_frame) an_empty_world))).
  { rewrite Hcodes. repeat constructor. }
  split; [exact Hcodes|].
  exact (proj2 (@decompressStream_has_no_truncation_test Reference.zstd 16
                  (a_stream cut_frame) an_empty_world
                  (meets_makes_progress 131072 eq_refl) HD Hfuel)
           Hw eq_refl Hclean).
Defined.

End Runs.

(** * Further properties *)

(** ** What a returned string tells *)

Section ReturnedFacts.
Context {X : Externals}.

(** The one-shot functions return or throw. *)
Lemma compressData_returns_or_throws (data : bytes) :
  (exists F, compressData data = Returned F) \/ (exists e, compressData data = Threw e).
Proof.
  unfold compressData.
  destruct (new_string _); [|eauto].
  destruct (ZSTD_compress _ _ _) as [cSize written].
  destruct (ZSTD_isError cSize); [eauto|].
  destruct (resize _ _); eauto.
Qed.

Lemma decompressData_returns_or_throws (data : bytes) :
  (exists p, decompressData data = Returned p) \/ (exists e, decompressData data = Threw e).
Proof.
  unfold decompressData.
  destruct (_ || _); [eauto|].
  destruct (new_string _); [|eauto].
  destruct (ZSTD_decompress _ _) as [dSize written].
  destruct (ZSTD_isError dSize); [eauto|].
  destruct (resize _ _); eauto.
Qed.

(** A frame whose header gives the length of [P] and which decompresses to
    [P] makes [decompressData] return [P]. *)
Lemma decompressData_of_frame (P F : bytes) :
  string_sizes_are_plain X ->
  size P <= string_max_size ->
  ZSTD_getFrameContentSize F = size P ->
  ZSTD_decompress (size P) F = (size P, P) ->
  decompressData F = Returned P.
Proof.
  intros Hmax HP Hhdr Hdec. unfold decompressData. rewrite Hhdr, Hdec.
  unfold string_sizes_are_plain, ZSTD_error_maxCode in Hmax.
  destruct (N.eqb_spec (size P) ZSTD_CONTENTSIZE_ERROR) as [E|_];
    [unfold ZSTD_CONTENTSIZE_ERROR in E; lia|].
  destruct (N.eqb_spec (size P) ZSTD_CONTENTSIZE_UNKNOWN) as [E|_];
    [unfold ZSTD_CONTENTSIZE_UNKNOWN in E; lia|].
  cbn [orb]. rewrite (new_string_some _ HP).
  unfold ZSTD_isError, ZSTD_error_maxCode.
  destruct (N.ltb_spec (2 ^ 64 - 120) (size P)); [lia|].
  now rewrite (resize_store P _ HP).
Qed.

Lemma decompressData_of_compressData (P F : bytes) :
  string_sizes_are_plain X ->
  compress_within_capacity X ->
  frames_carry_content_size X ->
  frames_decode X ->
  size P <= string_max_size ->
  compressData P = Returned F ->
  decompressData F = Returned P.
Proof.
  intros Hmax Hfit Hhdr Hdec HP H.
  destruct (compressData_returned P F Hfit H) as [Hok ->].
  apply decompressData_of_frame; auto.
Qed.

(** X1.  A payload returned by [decompressData] comes from a header with a
    usable content size that a string can hold and from a call of
    [ZSTD_decompress] that reported no error, and it is exactly as long as
    that call reported, whatever the call wrote. *)
Theorem returned_payload_has_the_reported_size (data p : bytes) :
  decompressData data = Returned p ->
  ZSTD_getFrameContentSize data <> ZSTD_CONTENTSIZE_ERROR
  /\ ZSTD_getFrameContentSize data <> ZSTD_CONTENTSIZE_UNKNOWN
  /\ ZSTD_getFrameContentSize data <= string_max_size
  /\ ZSTD_isError (fst (ZSTD_decompress (ZSTD_getFrameContentSize data) data)) = false
  /\ size p = fst (ZSTD_decompress (ZSTD_getFrameContentSize data) data).
Proof.
  unfold decompressData.
  destruct (N.eqb_spec (ZSTD_getFrameContentSize data) ZSTD_CONTENTSIZE_ERROR) as [|He];
    [discriminate|].
  destruct (N.eqb_spec (ZSTD_getFrameContentSize data) ZSTD_CONTENTSIZE_UNKNOWN) as [|Hu];
    [discriminate|].
  cbn [orb]. unfold new_string.
  destruct (N.ltb_spec string_max_size (ZSTD_getFrameContentSize data)) as [|Hm];
    [discriminate|].
  destruct (ZSTD_decompress (ZSTD_getFrameContentSize data) data) as [dSize written].
  cbn [fst]. destruct (ZSTD_isError dSize); [discriminate|].
  destruct (resize _ dSize) as [r|] eqn:Hr; [|discriminate].
  intros [= <-]. repeat split; try assumption. exact (resize_size _ _ _ Hr).
Qed.

(** X2.  A frame returned by [compressData] comes from a call of
    [ZSTD_compress] that reported no error, with the bound as capacity, and
    it is exactly as long as that call reported. *)
Theorem returned_frame_has_the_reported_size (data F : bytes) :
  compressData data = Returned F ->
  ZSTD_compressBound (size data) <= string_max_size
  /\ ZSTD_isError
       (fst (ZSTD_compress (ZSTD_compressBound (size data)) data COMPRESSION_LEVEL))
     = false
  /\ size F = fst (ZSTD_compress (ZSTD_compressBound (size data)) data COMPRESSION_LEVEL).
Proof.
  unfold compressData, new_string.
  destruct (N.ltb_spec string_max_size (ZSTD_compressBound (size data))) as [|Hm];
    [discriminate|].
  destruct (ZSTD_compress (ZSTD_compressBound (size data)) data COMPRESSION_LEVEL)
    as [cSize written].
  cbn [fst]. destruct (ZSTD_isError cSize); [discriminate|].
  destruct (resize _ cSize) as [r|] eqn:Hr; [|discriminate].
  intros [= <-]. repeat split; try assumption. exact (resize_size _ _ _ Hr).
Qed.

End ReturnedFacts.

(** ** The request half of the filter *)

Section RequestFacts.
Context {X : Externals}.
Variable shouldCompress_request : HttpRequest -> bool.

Lemma HttpMethod_eqb_Post (m : HttpMethod) :
  HttpMethod_eqb m Post = true <-> m = Post.
Proof. destruct m; simpl; split; congruence. Qed.

Lemma size_zero (s : bytes) : (size s =? 0) = true <-> s = [].
Proof.
  destruct s; [split; reflexivity|].
  rewrite size_cons. split; [|discriminate].
  intros H. apply N.eqb_eq in H. lia.
Qed.

(** X3.  A request that is not a POST, or that the predicate on requests
    turns down, or whose body is empty, goes down the chain as it came:
    [decompressData] is not consulted and no answer is sent. *)
Theorem requests_outside_the_policy_pass_unchanged (req : HttpRequest) :
  method req <> Post \/ shouldCompress_request req = false \/ getBody req = [] ->
  doFilter shouldCompress_request req = Continued req.
Proof.
  intros H. unfold doFilter.
  destruct (HttpMethod_eqb (method req) Post) eqn:Hm; [|reflexivity].
  destruct (shouldCompress_request req) eqn:Hs; [|reflexivity].
  cbn [andb].
  destruct (size (getBody req) =? 0) eqn:Hb; [reflexivity|].
  exfalso. destruct H as [H|[H|H]].
  - apply H. now apply HttpMethod_eqb_Post.
  - discriminate.
  - apply size_zero in H. congruence.
Qed.

(** X4.  A POST request with a body that the predicate accepts has one of
    two fates.  When [decompressData] returns, the chain goes on with the
    body replaced by the payload and nothing else changed.  When it throws,
    whatever the exception, the filter answers 400 with the body
    ["Invalid compressed data"] and the chain does not go on. *)
Theorem accepted_requests_are_decoded_or_refused (req : HttpRequest) :
  method req = Post ->
  shouldCompress_request req = true ->
  getBody req <> [] ->
  (exists p,
      decompressData (getBody req) = Returned p
      /\ doFilter shouldCompress_request req
         = Continued (mkRequest Post p (attributes req)))
  \/ (exists e,
         decompressData (getBody req) = Threw e
         /\ doFilter shouldCompress_request req
            = Replied k400BadRequest (list_byte_of_string "Invalid compressed data")).
Proof.
  intros Hm Hs Hb. unfold doFilter. rewrite Hm, Hs. cbn [HttpMethod_eqb andb].
  destruct (size (getBody req) =? 0) eqn:Hz.
  { apply size_zero in Hz. contradiction. }
  cbn [negb].
  destruct (decompressData_returns_or_throws (getBody req)) as [[p Hp]|[e He]].
  - left. exists p. rewrite Hp. split; [reflexivity|].
    unfold setRequestBody. now rewrite Hm.
  - right. exists e. rewrite He. split; reflexivity.
Qed.

(** X5.  In a POST request that the predicate on requests accepts, what
    [compressData] made of a payload reaches the next handler as that
    payload. *)
Theorem compressed_request_reaches_the_handler (req : HttpRequest) (P : bytes) :
  string_sizes_are_plain X ->
  compress_within_capacity X ->
  frames_carry_content_size X ->
  frames_decode X ->
  size P <= string_max_size ->
  method req = Post ->
  shouldCompress_request req = true ->
  getBody req <> [] ->
  compressData P = Returned (getBody req) ->
  doFilter shouldCompress_request req = Continued (setRequestBody P req).
Proof.
  intros Hmax Hfit Hhdr Hdec HP Hm Hs Hb Hc.
  pose proof (decompressData_of_compressData P _ Hmax Hfit Hhdr Hdec HP Hc) as Hd.
  unfold doFilter. rewrite Hm, Hs. cbn [HttpMethod_eqb andb].
  destruct (size (getBody req) =? 0) eqn:Hz.
  { apply size_zero in Hz. contradiction. }
  cbn [negb]. now rewrite Hd.
Qed.

(** X6.  A body whose header has no content size, or an invalid one, or
    announces more bytes than a string can hold is refused with 400:
    frames written by the streaming functions, which carry no content
    size, never pass the filter. *)
Theorem requests_without_usable_size_are_refused (req : HttpRequest) :
  method req = Post ->
  shouldCompress_request req = true ->
  getBody req <> [] ->
  ZSTD_getFrameContentSize (getBody req) = ZSTD_CONTENTSIZE_ERROR
  \/ ZSTD_getFrameContentSize (getBody req) = ZSTD_CONTENTSIZE_UNKNOWN
  \/ string_max_size < ZSTD_getFrameContentSize (getBody req) ->
  doFilter shouldCompress_request req
  = Replied k400BadRequest (list_byte_of_string "Invalid compressed data").
Proof.
  intros Hm Hs Hb Hn. unfold doFilter. rewrite Hm, Hs. cbn [HttpMethod_eqb andb].
  destruct (size (getBody req) =? 0) eqn:Hz.
  { apply size_zero in Hz. contradiction. }
  cbn [negb].
  assert (Hd : exists e, decompressData (getBody req) = Threw e).
  { unfold decompressData.
    destruct (_ || _) eqn:Hsent; [eauto|].
    apply orb_false_elim in Hsent. destruct Hsent as [He Hu].
    apply N.eqb_neq in He, Hu.
    destruct Hn as [Hn|[Hn|Hn]]; [contradiction|contradiction|].
    rewrite (new_string_none _ Hn). eauto. }
  destruct Hd as [e ->]. reflexivity.
Qed.

End RequestFacts.

(** ** The response callback and its client *)

Section ResponseFacts.
Context {X : Externals}.

(** X7.  Whenever the callback changed a response, the new body
    decompresses to the old one, the new response says
    [Content-Encoding: zstd] in front of the old headers, and the content
    type is the old one. *)
Theorem changed_response_decompresses_to_the_original (resp : HttpResponse) :
  string_sizes_are_plain X ->
  compress_within_capacity X ->
  frames_carry_content_size X ->
  frames_decode X ->
  size (body resp) <= string_max_size ->
  doFilter_response resp <> resp ->
  decompressData (body (doFilter_response resp)) = Returned (body resp)
  /\ headers (doFilter_response resp)
     = ("Content-Encoding", "zstd")%string :: headers resp
  /\ getContentType (doFilter_response resp) = getContentType resp.
Proof.
  intros Hmax Hfit Hhdr Hdec HP. unfold doFilter_response.
  destruct (shouldCompress resp); [|congruence].
  destruct (negb (size (body resp) =? 0)); [|congruence].
  destruct (compressData (body resp)) as [c|e| |] eqn:Hc; try congruence.
  intros _. cbn [addHeader setBody body headers getContentType].
  repeat split. now apply decompressData_of_compressData.
Qed.

End ResponseFacts.

(** ** Contexts: what every function does with them *)

Section ContextFacts.
Context {X : Externals}.

(** The worlds a function that creates one context and releases it at most
    once can leave. *)
Lemma advancedCompressData_world (data : bytes) (w : World) :
  snd (advancedCompressData data w) = w
  \/ snd (advancedCompressData data w) = acquired w
  \/ snd (advancedCompressData data w) = ZSTD_freeCtx (next_handle w) (acquired w).
Proof.
  unfold advancedCompressData, ZSTD_createCCtx, ZSTD_createCtx, ZSTD_freeCCtx.
  destruct (ctx_budget w); [now left|].
  destruct (new_string _); [|now right; left].
  destruct (ZSTD_compressCCtx _ _ _ _) as [cSize written].
  destruct (ZSTD_isError cSize); [now right; right|].
  destruct (resize _ _); now right; right.
Qed.

Lemma advancedDecompressData_world (data : bytes) (w : World) :
  snd (advancedDecompressData data w) = w
  \/ snd (advancedDecompressData data w) = acquired w
  \/ snd (advancedDecompressData data w) = ZSTD_freeCtx (next_handle w) (acquired w).
Proof.
  unfold advancedDecompressData, ZSTD_createDCtx, ZSTD_createCtx, ZSTD_freeDCtx.
  destruct (ctx_budget w); [now left|].
  destruct (_ =? ZSTD_CONTENTSIZE_ERROR); [now right; right|].
  destruct (_ =? ZSTD_CONTENTSIZE_UNKNOWN); [now right; right|].
  destruct (new_string _); [|now right; left].
  destruct (ZSTD_decompressDCtx _ _ _) as [dSize written].
  destruct (ZSTD_isError dSize); [now right; right|].
  destruct (resize _ _); now right; right.
Qed.

Lemma compress_loop_world (primitive : CCtx -> N -> bytes -> StreamRet CCtx)
    (fuel : nat) (input : istream) (w : World) :
  world (compress_loop primitive fuel input (next_handle w) (acquired w)) = acquired w
  \/ world (compress_loop primitive fuel input (next_handle w) (acquired w))
     = ZSTD_freeCtx (next_handle w) (acquired w).
Proof.
  unfold compress_loop, ZSTD_freeCCtx.
  destruct (pump _ _ _ _ _ _) as [p|ret p|p|]; cbn [world]; auto.
  destruct (ZSTD_isError _); cbn [world]; auto.
Qed.

Lemma streaming_worlds (fuel : nat) (input : istream) (w : World) :
  (world (compressStream fuel input w) = w
   \/ world (compressStream fuel input w) = acquired w
   \/ world (compressStream fuel input w) = ZSTD_freeCtx (next_handle w) (acquired w))
  /\ (world (advancedCompressStream fuel input w) = w
      \/ world (advancedCompressStream fuel input w) = acquired w
      \/ world (advancedCompressStream fuel input w)
         = ZSTD_freeCtx (next_handle w) (acquired w))
  /\ (world (decompressStream fuel input w) = w
      \/ world (decompressStream fuel input w) = acquired w
      \/ world (decompressStream fuel input w)
         = ZSTD_freeCtx (next_handle w) (acquired w)).
Proof.
  unfold compressStream, advancedCompressStream, decompressStream,
    ZSTD_createCCtx, ZSTD_createDCtx, ZSTD_createCtx, ZSTD_freeDCtx.
  destruct (ctx_budget w); [repeat split; now left|].
  repeat split.
  - right. apply compress_loop_world.
  - right. apply compress_loop_world.
  - destruct (pump _ _ _ _ _ _) as [p|ret p|p|]; cbn [world]; auto.
Qed.

(** The three worlds keep what was there before. *)
Lemma own_context_only (w w' : World) :
  tidy w ->
  w' = w \/ w' = acquired w \/ w' = ZSTD_freeCtx (next_handle w) (acquired w) ->
  (forall h, In h (live w) -> In h (live w'))
  /\ (forall h, In h (live w') -> h = next_handle w \/ In h (live w))
  /\ (released w' = released w \/ released w' = next_handle w :: released w)
  /\ tidy w'.
Proof.
  intros Ht [-> | [-> | ->]].
  - split; [auto|split; [auto|split; [auto|exact Ht]]].
  - destruct Ht as [Hl Hr]. unfold tidy.
    cbn [acquired live released next_handle].
    split; [|split; [|split; [|split]]].
    + intros h Hin. now right.
    + intros h [<-|Hin]; auto.
    + now left.
    + intros h [<-|Hin]; [lia|]. specialize (Hl _ Hin). lia.
    + intros h Hin. specialize (Hr _ Hin). lia.
  - destruct (release_after_acquire w Ht) as (Hlive & Hrel & _).
    destruct Ht as [Hl Hr]. unfold tidy. rewrite Hlive, Hrel.
    cbn [ZSTD_freeCtx acquired next_handle].
    split; [|split; [|split; [|split]]].
    + auto.
    + auto.
    + now right.
    + intros h Hin. specialize (Hl _ Hin). lia.
    + intros h [<-|Hin]; [lia|]. specialize (Hr _ Hin). lia.
Qed.

(** X8.  No call touches a context it did not create: after
    [advancedCompressData] or [advancedDecompressData], and after a
    streaming function that threw, the contexts that were live before the
    call are still live, the only handle the call can have added to the
    live ones or released is the one it created, it released it at most
    once, and handles stay in order. *)
Theorem foreign_contexts_are_left_alone
    (fuel : nat) (input : istream) (data : bytes) (w w' : World) :
  tidy w ->
  w' = snd (advancedCompressData data w)
  \/ w' = snd (advancedDecompressData data w)
  \/ (exists run e,
         (run = compressStream fuel input w
          \/ run = decompressStream fuel input w
          \/ run = advancedCompressStream fuel input w
          \/ run = advancedDecompressStream fuel input w)
         /\ result run = Threw e
         /\ w' = world run) ->
  (forall h, In h (live w) -> In h (live w'))
  /\ (forall h, In h (live w') -> h = next_handle w \/ In h (live w))
  /\ (released w' = released w \/ released w' = next_handle w :: released w)
  /\ tidy w'.
Proof.
  intros Ht Hw'. apply own_context_only; [exact Ht|].
  destruct (streaming_worlds fuel input w) as (Hc & Hac & Hd).
  destruct Hw' as [-> | [-> | (run & e & Hrun & _ & ->)]].
  - apply advancedCompressData_world.
  - apply advancedDecompressData_world.
  - destruct Hrun as [-> | [-> | [-> | ->]]]; assumption.
Qed.

(** X9.  When no context can be created, each of the six functions that
    need one throws its ["Failed to create ..."] error and leaves the
    world as it found it. *)
Theorem creation_failure_is_reported
    (fuel : nat) (input : istream) (data : bytes) (w : World) :
  ctx_budget w = 0%nat ->
  advancedCompressData data w
  = (Threw (runtime_error "Failed to create ZSTD compression context"), w)
  /\ advancedDecompressData data w
     = (Threw (runtime_error "Failed to create ZSTD decompression context"), w)
  /\ compressStream fuel input w
     = mkStreamRun (Threw (runtime_error "Failed to create ZSTD compression context"))
         [] [] w
  /\ advancedCompressStream fuel input w
     = mkStreamRun (Threw (runtime_error "Failed to create ZSTD compression context"))
         [] [] w
  /\ decompressStream fuel input w
     = mkStreamRun (Threw (runtime_error "Failed to create ZSTD decompression context"))
         [] [] w
  /\ advancedDecompressStream fuel input w
     = mkStreamRun (Threw (runtime_error "Failed to create ZSTD decompression context"))
         [] [] w.
Proof.
  intros Hw.
  unfold advancedCompressData, advancedDecompressData, compressStream,
    advancedCompressStream, advancedDecompressStream, decompressStream,
    ZSTD_createCCtx, ZSTD_createDCtx.
  rewrite (create_fails w Hw). repeat split.
Qed.

(** X10.  Whenever [advancedCompressData] or [advancedDecompressData],
    having created its context, returns a string or throws a
    [runtime_error], it has released that context exactly once and the
    live contexts are those that were live before: after success, after an
    error of the primitive, and after refusing a header. *)
Theorem advanced_functions_release_their_context (data : bytes) (w : World) :
  tidy w ->
  ctx_budget w <> 0%nat ->
  ((exists F, fst (advancedCompressData data w) = Returned F)
   \/ (exists what, fst (advancedCompressData data w) = Threw (runtime_error what)) ->
   live (snd (advancedCompressData data w)) = live w
   /\ released (snd (advancedCompressData data w)) = next_handle w :: released w
   /\ count_occ Nat.eq_dec (released (snd (advancedCompressData data w)))
        (next_handle w) = 1%nat)
  /\ ((exists p, fst (advancedDecompressData data w) = Returned p)
      \/ (exists what,
             fst (advancedDecompressData data w) = Threw (runtime_error what)) ->
      live (snd (advancedDecompressData data w)) = live w
      /\ released (snd (advancedDecompressData data w)) = next_handle w :: released w
      /\ count_occ Nat.eq_dec (released (snd (advancedDecompressData data w)))
           (next_handle w) = 1%nat).
Proof.
  intros Ht Hw. split.
  - intros Hout.
    assert (Hfree : snd (advancedCompressData data w)
                    = ZSTD_freeCtx (next_handle w) (acquired w)).
    { revert Hout. unfold advancedCompressData, ZSTD_createCCtx, ZSTD_freeCCtx.
      rewrite (create_succeeds w Hw).
      destruct (new_string _) as [buf|].
      - intros _. destruct (ZSTD_compressCCtx _ _ _ _) as [cSize written].
        destruct (ZSTD_isError cSize); [reflexivity|].
        now destruct (resize _ cSize).
      - intros [[F H]|[what H]]; discriminate. }
    rewrite Hfree. exact (release_after_acquire w Ht).
  - intros Hout.
    assert (Hfree : snd (advancedDecompressData data w)
                    = ZSTD_freeCtx (next_handle w) (acquired w)).
    { revert Hout. unfold advancedDecompressData, ZSTD_createDCtx, ZSTD_freeDCtx.
      rewrite (create_succeeds w Hw).
      destruct (_ =? ZSTD_CONTENTSIZE_ERROR); [reflexivity|].
      destruct (_ =? ZSTD_CONTENTSIZE_UNKNOWN); [reflexivity|].
      destruct (new_string _) as [buf|].
      - intros _. destruct (ZSTD_decompressDCtx _ _ _) as [dSize written].
        destruct (ZSTD_isError dSize); [reflexivity|].
        now destruct (resize _ dSize).
      - intros [[F H]|[what H]]; discriminate. }
    rewrite Hfree. exact (release_after_acquire w Ht).
Qed.

End ContextFacts.

(** ** More on the reading loop *)

Section MoreLoopFacts.
Context {C : Type}.
Variable primitive : C -> N -> bytes -> StreamRet C.
Variable bufferSize : N.

Lemma consume_clean (fuel : nat) (chunk : bytes) (pos : N) (p : Progress C) :
  clean (log p) -> clean_exit (consume primitive bufferSize fuel chunk pos p).
Proof.
  revert pos p. induction fuel as [|fuel IH]; intros pos p Hp; simpl.
  - destruct (pos <? size chunk); simpl; auto.
  - destruct (pos <? size chunk); [|exact Hp].
    destruct (ZSTD_isError (code (primitive (ctx p) bufferSize
                                    (skipn (N.to_nat pos) chunk)))) eqn:E.
    + simpl. eauto.
    + apply IH. simpl. now constructor.
Qed.

Lemma pump_clean (inner fuel : nat) (input : istream) (p : Progress C) :
  clean (log p) -> clean_exit (pump primitive bufferSize inner fuel input p).
Proof.
  revert input p. induction fuel as [|fuel IH]; intros input p Hp; simpl.
  - destruct (good input); simpl; auto.
  - destruct (good input); [|exact Hp].
    destruct (read input bufferSize) as [[chunk input']|]; [|exact Hp].
    pose proof (consume_clean inner chunk 0 p Hp) as Hc.
    destruct (consume primitive bufferSize inner chunk 0 p) as [p'|ret' p'|p'|];
      auto.
Qed.

(** A stream that is not good, or an empty one, gives the loop nothing to
    do. *)
Lemma pump_nothing (inner fuel : nat) (input : istream) (p : Progress C) :
  good input = false
  \/ (pending input = [] /\ exceptions input = goodbit
      /\ 0 < bufferSize /\ fuel <> 0%nat) ->
  pump primitive bufferSize inner fuel input p = Drained p.
Proof.
  intros [Hbad|(Hempty & Hq & Hbuf & Hfuel)].
  - destruct fuel; simpl; now rewrite Hbad.
  - destruct fuel as [|fuel]; [congruence|]. simpl.
    destruct (good input) eqn:Hgood; [|reflexivity].
    unfold read. rewrite Hgood, Hempty, Hq. rewrite firstn_nil, skipn_nil.
    change (size []) with 0.
    destruct (N.ltb_spec 0 bufferSize); [|lia].
    unfold raises. cbn [badbit eofbit failbit goodbit]. rewrite !andb_false_r.
    cbn [orb].
    replace (consume primitive bufferSize inner [] 0 p) with (Drained p)
      by (destruct inner; reflexivity).
    destruct fuel; simpl; unfold good; cbn [rdstate badbit eofbit failbit];
      now rewrite orb_true_r.
Qed.

(** The calls of the loop respect the buffers: the capacity is the buffer
    size, the input is not empty and not longer than the buffer. *)
Lemma consume_guarded (fuel : nat) (chunk : bytes) (pos : N) (p : Progress C) :
  size chunk <= bufferSize ->
  consume (guarded bufferSize primitive) bufferSize fuel chunk pos p
  = consume primitive bufferSize fuel chunk pos p.
Proof.
  intros Hchunk. revert pos p. induction fuel as [|fuel IH]; intros pos p; simpl.
  - reflexivity.
  - destruct (N.ltb_spec pos (size chunk)) as [Hlt|]; [|reflexivity].
    assert (Hsrc : 0 < size (skipn (N.to_nat pos) chunk) <= bufferSize).
    { unfold size in *. rewrite length_skipn. lia. }
    assert (Hcall : guarded bufferSize primitive (ctx p) bufferSize
                      (skipn (N.to_nat pos) chunk)
                    = primitive (ctx p) bufferSize (skipn (N.to_nat pos) chunk)).
    { unfold guarded. rewrite N.eqb_refl.
      destruct (N.ltb_spec 0 (size (skipn (N.to_nat pos) chunk))); [|lia].
      destruct (N.leb_spec (size (skipn (N.to_nat pos) chunk)) bufferSize); [|lia].
      reflexivity. }
    rewrite Hcall.
    destruct (ZSTD_isError _); [reflexivity|apply IH].
Qed.

Lemma read_within (input input' : istream) (n : N) (chunk : bytes) :
  read input n = Some (chunk, input') -> size chunk <= n.
Proof.
  unfold read.
  assert (Hgot : size (firstn (N.to_nat n) (pending input)) <= n).
  { unfold size. rewrite length_firstn. lia. }
  destruct (good input).
  - destruct (_ <? n); [destruct (raises _ _); [discriminate|]|];
      intros [= <- _]; exact Hgot.
  - destruct (raises _ _); [discriminate|]. intros [= <- _]. apply N.le_0_l.
Qed.

Lemma pump_guarded (inner fuel : nat) (input : istream) (p : Progress C) :
  pump (guarded bufferSize primitive) bufferSize inner fuel input p
  = pump primitive bufferSize inner fuel input p.
Proof.
  revert input p. induction fuel as [|fuel IH]; intros input p; simpl.
  - reflexivity.
  - destruct (good input); [|reflexivity].
    destruct (read input bufferSize) as [[chunk input']|] eqn:Hr; [|reflexivity].
    rewrite (consume_guarded inner chunk 0 p (read_within _ _ _ _ Hr)).
    destruct (consume primitive bufferSize inner chunk 0 p); auto.
Qed.

End MoreLoopFacts.

(** Two primitives that consume and produce the same and report the same
    errors drive the loop the same way. *)
Section TwoPrimitives.
Context {C : Type}.
Variables first second : C -> N -> bytes -> StreamRet C.
Variable bufferSize : N.

Hypothesis agree :
  forall c cap src,
    ctx_after (first c cap src) = ctx_after (second c cap src)
    /\ advance (first c cap src) = advance (second c cap src)
    /\ emitted (first c cap src) = emitted (second c cap src)
    /\ ZSTD_isError (code (first c cap src)) = ZSTD_isError (code (second c cap src))
    /\ (ZSTD_isError (code (first c cap src)) = true ->
        code (first c cap src) = code (second c cap src)).

Lemma consume_same (fuel : nat) (chunk : bytes) (pos : N) (p q : Progress C) :
  ctx p = ctx q -> output p = output q ->
  same_exit (consume first bufferSize fuel chunk pos p)
            (consume second bufferSize fuel chunk pos q).
Proof.
  revert pos p q. induction fuel as [|fuel IH]; intros pos p q Hc Ho; simpl.
  - destruct (pos <? size chunk); simpl; auto.
  - destruct (pos <? size chunk); [|simpl; auto].
    rewrite <- Hc.
    destruct (agree (ctx p) bufferSize (skipn (N.to_nat pos) chunk))
      as (Hctx & Hadv & Hem & Herr & Hcode).
    rewrite <- Herr.
    destruct (ZSTD_isError (code (first (ctx p) bufferSize
                                    (skipn (N.to_nat pos) chunk)))).
    + simpl. auto.
    + rewrite <- Hadv. apply IH; simpl; congruence.
Qed.

Lemma pump_same (inner fuel : nat) (input : istream) (p q : Progress C) :
  ctx p = ctx q -> output p = output q ->
  same_exit (pump first bufferSize inner fuel input p)
            (pump second bufferSize inner fuel input q).
Proof.
  revert input p q. induction fuel as [|fuel IH]; intros input p q Hc Ho; simpl.
  - destruct (good input); simpl; auto.
  - destruct (good input); [|simpl; auto].
    destruct (read input bufferSize) as [[chunk input']|]; [|simpl; auto].
    pose proof (consume_same inner chunk 0 p q Hc Ho) as Hs.
    destruct (consume first bufferSize inner chunk 0 p) as [p'|r p'|p'|];
      destruct (consume second bufferSize inner chunk 0 q) as [q'|r' q'|q'|];
      simpl in Hs; try contradiction; simpl; auto.
    destruct Hs. now apply IH.
Qed.

End TwoPrimitives.

(** ** More on the streaming functions *)

Section MoreStreamingFacts.
Context {X : Externals}.

Lemma compress_loop_ends_on_errors
    (primitive : CCtx -> N -> bytes -> StreamRet CCtx)
    (fuel : nat) (input : istream) (cctx : nat) (w : World) :
  errors_end_the_run (compress_loop primitive fuel input cctx w).
Proof.
  unfold compress_loop, errors_end_the_run.
  pose proof (pump_clean primitive ZSTD_CStreamOutSize fuel fuel input
                (mkProgress fresh_CCtx [] []) (Forall_nil _)) as Hc.
  destruct (pump _ _ _ _ _ _) as [p|ret p|p|]; simpl in *.
  - destruct (ZSTD_isError (code (ZSTD_endStream (ctx p) ZSTD_CStreamOutSize))) eqn:E;
      simpl; (split; [exact Hc|]); rewrite E; split; eauto; try discriminate.
    intros [what H]. discriminate.
  - destruct Hc as (earlier & -> & Hclean & Herr). split; [exact Hclean|].
    rewrite Herr. split; eauto.
  - destruct (log p) as [|latest earlier]; [exact I|].
    inversion Hc as [|? ? Hl He]; subst. split; [exact He|].
    rewrite Hl. split; [discriminate|]. intros [what H]. discriminate.
  - exact I.
Qed.

(** X11.  A streaming function stops at the first value of its primitive
    that [ZSTD_isError] flags and throws a [runtime_error] for it: in the
    values a run obtained only the latest can be an error, and it is one
    exactly when the run ended by a [runtime_error].  No error of the
    primitive is passed over, and no call follows one. *)
Theorem streaming_stops_at_the_first_error (fuel : nat) (input : istream) (w : World) :
  errors_end_the_run (compressStream fuel input w)
  /\ errors_end_the_run (decompressStream fuel input w)
  /\ errors_end_the_run (advancedCompressStream fuel input w)
  /\ errors_end_the_run (advancedDecompressStream fuel input w).
Proof.
  assert (Hd : errors_end_the_run (decompressStream fuel input w)).
  { unfold decompressStream, errors_end_the_run.
    destruct (ZSTD_createDCtx w) as [[dctx|] w']; [|exact I].
    pose proof (pump_clean ZSTD_decompressStream ZSTD_DStreamOutSize fuel fuel input
                  (mkProgress fresh_DCtx [] []) (Forall_nil _)) as Hc.
    destruct (pump _ _ _ _ _ _) as [p|ret p|p|]; simpl in *.
    - destruct (log p) as [|latest earlier]; [exact I|].
      inversion Hc as [|? ? Hl He]; subst. split; [exact He|].
      rewrite Hl. split; [discriminate|]. intros [what H]. discriminate.
    - destruct Hc as (earlier & -> & Hclean & Herr). split; [exact Hclean|].
      rewrite Herr. split; eauto.
    - destruct (log p) as [|latest earlier]; [exact I|].
      inversion Hc as [|? ? Hl He]; subst. split; [exact He|].
      rewrite Hl. split; [discriminate|]. intros [what H]. discriminate.
    - exact I. }
  repeat split; try exact Hd.
  - unfold compressStream. destruct (ZSTD_createCCtx w) as [[cctx|] w']; [|exact I].
    apply compress_loop_ends_on_errors.
  - unfold advancedCompressStream.
    destruct (ZSTD_createCCtx w) as [[cctx|] w']; [|exact I].
    apply compress_loop_ends_on_errors.
Qed.

End MoreStreamingFacts.

Section StreamingErrors.
Context {X : Externals}.

Lemma compress_loop_throws
    (primitive : CCtx -> N -> bytes -> StreamRet CCtx)
    (fuel : nat) (input : istream) (cctx : nat) (w : World) (e : exn) :
  result (compress_loop primitive fuel input cctx w) = Threw e ->
  (e = ios_failure /\ exceptions input <> goodbit)
  \/ exists ret,
       In ret (returned_codes (compress_loop primitive fuel input cctx w))
       /\ ZSTD_isError ret = true
       /\ e = runtime_error ("Compression error: " ++ ZSTD_getErrorName ret).
Proof.
  unfold compress_loop.
  destruct (pump _ _ _ _ _ _) as [p|ret p|p|] eqn:E; simpl.
  - destruct (ZSTD_isError (code (ZSTD_endStream (ctx p) ZSTD_CStreamOutSize))) eqn:Hend;
      simpl; [|discriminate].
    intros [= <-]. right. eexists. split; [now left|]. split; [exact Hend|reflexivity].
  - intros [= <-]. right. exists ret.
    destruct (pump_failure _ _ _ _ _ _ _ _ E) as [Herr Hin]. auto.
  - intros [= <-]. left. split; [reflexivity|].
    intros Hq. exact (pump_quiet _ _ _ _ _ _ _ Hq E).
  - discriminate.
Qed.

(** X12.  Whatever [compressStream] or [advancedCompressStream] throws is
    the failure to create the context, an exception of the input stream,
    which takes a stream with an exception mask, or the
    ["Compression error: "] built from a value of the loop's primitive or
    of [ZSTD_endStream] that [ZSTD_isError] flags. *)
Theorem compressStream_throws_only_primitive_errors
    (fuel : nat) (input : istream) (w : World) (e : exn) :
  result (compressStream fuel input w) = Threw e
  \/ result (advancedCompressStream fuel input w) = Threw e ->
  e = runtime_error "Failed to create ZSTD compression context"
  \/ (e = ios_failure /\ exceptions input <> goodbit)
  \/ exists ret,
       (In ret (returned_codes (compressStream fuel input w))
        \/ In ret (returned_codes (advancedCompressStream fuel input w)))
       /\ ZSTD_isError ret = true
       /\ e = runtime_error ("Compression error: " ++ ZSTD_getErrorName ret).
Proof.
  unfold compressStream, advancedCompressStream.
  destruct (ZSTD_createCCtx w) as [[cctx|] w']; simpl.
  - intros [H|H]; apply compress_loop_throws in H;
      destruct H as [H|(ret & Hin & Herr & ->)]; eauto 8.
  - intros [[= <-]|[= <-]]; auto.
Qed.

(** X13.  With buffers of positive size and primitives that move forward
    in their input, the streaming functions end: fuel above the length of
    the input plus one is never used up. *)
Theorem streaming_functions_terminate (fuel : nat) (input : istream) (w : World) :
  makes_progress (fun c cap src => ZSTD_compressStream2 c cap src ZSTD_e_continue)
    ZSTD_CStreamOutSize ->
  makes_progress ZSTD_compressStream ZSTD_CStreamOutSize ->
  makes_progress ZSTD_decompressStream ZSTD_DStreamOutSize ->
  0 < ZSTD_CStreamOutSize ->
  0 < ZSTD_DStreamOutSize ->
  (List.length (pending input) + 1 < fuel)%nat ->
  result (compressStream fuel input w) <> OutOfFuel
  /\ result (decompressStream fuel input w) <> OutOfFuel
  /\ result (advancedCompressStream fuel input w) <> OutOfFuel
  /\ result (advancedDecompressStream fuel input w) <> OutOfFuel.
Proof.
  intros Hc2 Hc Hd HC HD Hfuel.
  assert (Hloop : forall primitive cctx w',
             makes_progress primitive ZSTD_CStreamOutSize ->
             result (compress_loop primitive fuel input cctx w') <> OutOfFuel).
  { intros primitive cctx w' Hp. unfold compress_loop.
    pose proof (pump_terminates primitive ZSTD_CStreamOutSize Hp fuel fuel input
                  (mkProgress fresh_CCtx [] []) HC) as Hterm.
    destruct (pump _ _ _ _ _ _) as [p|ret p|p|]; simpl; try discriminate.
    - destruct (ZSTD_isError _); discriminate.
    - exfalso. apply Hterm; [lia|lia|reflexivity]. }
  assert (Hdec : result (decompressStream fuel input w) <> OutOfFuel).
  { unfold decompressStream.
    destruct (ZSTD_createDCtx w) as [[dctx|] w']; [|discriminate].
    pose proof (pump_terminates ZSTD_decompressStream ZSTD_DStreamOutSize Hd fuel fuel
                  input (mkProgress fresh_DCtx [] []) HD) as Hterm.
    destruct (pump _ _ _ _ _ _) as [p|ret p|p|]; simpl; try discriminate.
    exfalso. apply Hterm; [lia|lia|reflexivity]. }
  repeat split; try exact Hdec.
  - unfold compressStream. destruct (ZSTD_createCCtx w) as [[cctx|] w']; [|discriminate].
    now apply Hloop.
  - unfold advancedCompressStream.
    destruct (ZSTD_createCCtx w) as [[cctx|] w']; [|discriminate].
    now apply Hloop.
Qed.

End StreamingErrors.

Section StreamingEdges.
Context {X : Externals}.

(** X14.  A stream that is not good when the function is entered (a file
    that could not be opened, say) is never read, whatever its exception
    mask and whatever it still holds, and nothing is thrown on its
    account.  [decompressStream] makes no call of its primitive,
    accumulates nothing and reaches its closing brace; [compressStream]
    and [advancedCompressStream] make the one call of [ZSTD_endStream] on
    the fresh context and throw only if that call reports an error. *)
Theorem failed_stream_is_never_read (fuel : nat) (input : istream) (w : World) :
  good input = false ->
  ctx_budget w <> 0%nat ->
  (result (decompressStream fuel input w) = FlowsOffEnd
   /\ accumulated (decompressStream fuel input w) = []
   /\ returned_codes (decompressStream fuel input w) = [])
  /\ (result (compressStream fuel input w) = result (closing_only w)
      /\ accumulated (compressStream fuel input w) = accumulated (closing_only w)
      /\ returned_codes (compressStream fuel input w)
         = [code (ZSTD_endStream fresh_CCtx ZSTD_CStreamOutSize)])
  /\ (result (advancedCompressStream fuel input w) = result (closing_only w)
      /\ accumulated (advancedCompressStream fuel input w)
         = accumulated (closing_only w)
      /\ returned_codes (advancedCompressStream fuel input w)
         = [code (ZSTD_endStream fresh_CCtx ZSTD_CStreamOutSize)]).
Proof.
  intros Hbad Hw.
  unfold decompressStream, compressStream, advancedCompressStream, compress_loop,
    closing_only, ZSTD_createDCtx, ZSTD_createCCtx.
  rewrite (create_succeeds w Hw), !pump_nothing by now left.
  cbn [ctx output log app].
  repeat split; now destruct (ZSTD_isError _).
Qed.

(** X15.  On an empty input with the default exception mask one [read]
    finds the end and nothing is decoded.  [decompressStream] makes no call
    of [ZSTD_decompressStream], throws nothing, accumulates nothing and
    reaches its closing brace; [compressStream] and
    [advancedCompressStream] accumulate what the one call of
    [ZSTD_endStream] on the fresh context gives and throw only if that call
    reports an error. *)
Theorem empty_input_is_not_decoded (fuel : nat) (w : World) :
  0 < ZSTD_CStreamOutSize ->
  0 < ZSTD_DStreamOutSize ->
  fuel <> 0%nat ->
  ctx_budget w <> 0%nat ->
  (result (decompressStream fuel (mkIstream [] goodbit goodbit) w) = FlowsOffEnd
   /\ accumulated (decompressStream fuel (mkIstream [] goodbit goodbit) w) = []
   /\ returned_codes (decompressStream fuel (mkIstream [] goodbit goodbit) w) = [])
  /\ (result (compressStream fuel (mkIstream [] goodbit goodbit) w)
      = result (closing_only w)
      /\ accumulated (compressStream fuel (mkIstream [] goodbit goodbit) w)
         = accumulated (closing_only w)
      /\ returned_codes (compressStream fuel (mkIstream [] goodbit goodbit) w)
         = [code (ZSTD_endStream fresh_CCtx ZSTD_CStreamOutSize)])
  /\ (result (advancedCompressStream fuel (mkIstream [] goodbit goodbit) w)
      = result (closing_only w)
      /\ accumulated (advancedCompressStream fuel (mkIstream [] goodbit goodbit) w)
         = accumulated (closing_only w)
      /\ returned_codes (advancedCompressStream fuel (mkIstream [] goodbit goodbit) w)
         = [code (ZSTD_endStream fresh_CCtx ZSTD_CStreamOutSize)]).
Proof.
  intros HC HD Hfuel Hw.
  unfold decompressStream, compressStream, advancedCompressStream, compress_loop,
    closing_only, ZSTD_createDCtx, ZSTD_createCCtx.
  rewrite (create_succeeds w Hw), !pump_nothing by (right; auto).
  cbn [ctx output log app].
  repeat split; now destruct (ZSTD_isError _).
Qed.

Lemma compress_loop_releases
    (primitive : CCtx -> N -> bytes -> StreamRet CCtx)
    (fuel : nat) (input : istream) (cctx : nat) (w : World) (e : exn) :
  exceptions input = goodbit ->
  result (compress_loop primitive fuel input cctx w) = Threw e ->
  world (compress_loop primitive fuel input cctx w) = ZSTD_freeCtx cctx w.
Proof.
  intros Hq. unfold compress_loop, ZSTD_freeCCtx.
  destruct (pump _ _ _ _ _ _) as [p|ret p|p|] eqn:E; simpl; try reflexivity.
  - now destruct (ZSTD_isError _).
  - exfalso. exact (pump_quiet _ _ _ _ _ _ _ Hq E).
  - discriminate.
Qed.

(** X16.  On a stream with the default exception mask, a streaming
    function that created its context and then threw has released that
    context exactly once before throwing, and the live contexts are those
    that were live before the call. *)
Theorem streaming_functions_release_before_throwing
    (fuel : nat) (input : istream) (w : World) (run : StreamRun) (e : exn) :
  tidy w ->
  ctx_budget w <> 0%nat ->
  exceptions input = goodbit ->
  run = compressStream fuel input w
  \/ run = decompressStream fuel input w
  \/ run = advancedCompressStream fuel input w
  \/ run = advancedDecompressStream fuel input w ->
  result run = Threw e ->
  live (world run) = live w
  /\ released (world run) = next_handle w :: released w
  /\ count_occ Nat.eq_dec (released (world run)) (next_handle w) = 1%nat.
Proof.
  intros Ht Hw Hq Hrun Hthrew.
  assert (Hfree : world run = ZSTD_freeCtx (next_handle w) (acquired w)).
  { assert (Hd : result (decompressStream fuel input w) = Threw e ->
                 world (decompressStream fuel input w)
                 = ZSTD_freeCtx (next_handle w) (acquired w)).
    { unfold decompressStream, ZSTD_createDCtx, ZSTD_freeDCtx.
      rewrite (create_succeeds w Hw).
      destruct (pump _ _ _ _ _ _) as [p|ret p|p|] eqn:E; simpl; try reflexivity.
      - exfalso. exact (pump_quiet _ _ _ _ _ _ _ Hq E).
      - discriminate. }
    destruct Hrun as [-> | [-> | [-> | ->]]]; try (now apply Hd).
    - revert Hthrew. unfold compressStream, ZSTD_createCCtx.
      rewrite (create_succeeds w Hw). now apply compress_loop_releases.
    - revert Hthrew. unfold advancedCompressStream, ZSTD_createCCtx.
      rewrite (create_succeeds w Hw). now apply compress_loop_releases. }
  rewrite Hfree. exact (release_after_acquire w Ht).
Qed.

(** X17.  When [ZSTD_compressStream] consumes, produces and fails as
    [ZSTD_compressStream2] does with [ZSTD_e_continue],
    [advancedCompressStream] ends as [compressStream] does, with the same
    bytes accumulated and the same world. *)
Theorem advancedCompressStream_agrees (fuel : nat) (input : istream) (w : World) :
  continue_variants_agree X ->
  result (advancedCompressStream fuel input w) = result (compressStream fuel input w)
  /\ accumulated (advancedCompressStream fuel input w)
     = accumulated (compressStream fuel input w)
  /\ world (advancedCompressStream fuel input w) = world (compressStream fuel input w).
Proof.
  intros Hagree. unfold advancedCompressStream, compressStream.
  destruct (ZSTD_createCCtx w) as [[cctx|] w']; [|repeat split].
  unfold compress_loop.
  pose proof (pump_same ZSTD_compressStream
                (fun c cap src => ZSTD_compressStream2 c cap src ZSTD_e_continue)
                ZSTD_CStreamOutSize Hagree fuel fuel input
                (mkProgress fresh_CCtx [] []) (mkProgress fresh_CCtx [] [])
                eq_refl eq_refl) as Hs.
  destruct (pump ZSTD_compressStream _ _ _ _ _) as [p|r p|p|];
    destruct (pump (fun c cap src => ZSTD_compressStream2 c cap src ZSTD_e_continue)
                _ _ _ _ _) as [q|r' q|q|];
    simpl in Hs; try contradiction.
  - destruct Hs as [-> ->].
    destruct (ZSTD_isError _); repeat split.
  - destruct Hs as (-> & _ & ->). repeat split.
  - destruct Hs as [_ ->]. repeat split.
  - repeat split.
Qed.

(** X18.  Every call the streaming functions make respects the buffers
    they allocated: a primitive is given the buffer size as capacity and,
    in the loop, an input that is not empty and not longer than the
    buffer.  Primitives that turn any other call into an error give the
    same runs. *)
Theorem calls_stay_within_the_buffers (fuel : nat) (input : istream) (w : World) :
  @compressStream (guard_streams X) fuel input w = compressStream fuel input w
  /\ @decompressStream (guard_streams X) fuel input w = decompressStream fuel input w
  /\ @advancedCompressStream (guard_streams X) fuel input w
     = advancedCompressStream fuel input w
  /\ @advancedDecompressStream (guard_streams X) fuel input w
     = advancedDecompressStream fuel input w.
Proof.
  assert (Hd : @decompressStream (guard_streams X) fuel input w
               = decompressStream fuel input w).
  { unfold decompressStream. destruct (ZSTD_createDCtx w) as [[dctx|] w']; [|reflexivity].
    cbn [guard_streams ZSTD_DStreamOutSize ZSTD_decompressStream fresh_DCtx DCtx
         ZSTD_getErrorName].
    now rewrite pump_guarded. }
  assert (Hloop : forall (primitive : @CCtx X -> N -> bytes -> StreamRet (@CCtx X))
                         cctx w',
             @compress_loop (guard_streams X)
               (guarded (@ZSTD_CStreamOutSize X) primitive) fuel input cctx w'
             = @compress_loop X primitive fuel input cctx w').
  { intros primitive cctx w'. unfold compress_loop.
    cbn [guard_streams ZSTD_CStreamOutSize ZSTD_endStream fresh_CCtx CCtx
         ZSTD_getErrorName].
    rewrite pump_guarded. now rewrite N.eqb_refl. }
  repeat split; try exact Hd.
  - unfold compressStream. destruct (ZSTD_createCCtx w) as [[cctx|] w']; [|reflexivity].
    rewrite <- (Hloop (fun c cap src => ZSTD_compressStream2 c cap src ZSTD_e_continue)
                  cctx w').
    reflexivity.
  - unfold advancedCompressStream.
    destruct (ZSTD_createCCtx w) as [[cctx|] w']; [|reflexivity].
    rewrite <- (Hloop ZSTD_compressStream cctx w'). reflexivity.
Qed.

End StreamingEdges.

(** * More concrete runs *)

Module MoreRuns.
Import ReferenceFacts.

Lemma a_busy_world_is_tidy : tidy a_busy_world.
Proof.
  split; intros h Hin; simpl in *.
  - destruct Hin as [<-|[]]. constructor.
  - destruct Hin.
Defined.

Lemma compress_makes_progress :
  makes_progress
    (fun c cap src => @ZSTD_compressStream2 Reference.zstd c cap src ZSTD_e_continue)
    (@ZSTD_CStreamOutSize Reference.zstd).
Proof.
  intros c src Hne _. destruct src as [|b src]; [congruence|].
  change (0 < advance (Reference.compressStream2 c 131591 (b :: src) ZSTD_e_continue)).
  unfold Reference.compressStream2.
  change (131591 <? 258) with false. cbv iota. cbn [advance].
  change (firstn 255 (b :: src)) with (b :: firstn 254 src).
  rewrite size_cons. lia.
Qed.

(** X1 on the frame of [hello]. *)
Lemma returned_payload_hello :
  @decompressData Reference.zstd hello_frame = Returned hello
  /\ size hello = fst (@ZSTD_decompress Reference.zstd
                         (@ZSTD_getFrameContentSize Reference.zstd hello_frame)
                         hello_frame).
Proof.
  assert (Hd : @decompressData Reference.zstd hello_frame = Returned hello)
    by reflexivity.
  split; [exact Hd|].
  exact (proj2 (proj2 (proj2 (proj2
           (@returned_payload_has_the_reported_size Reference.zstd hello_frame hello
              Hd))))).
Defined.

(** X2 on [hello]. *)
Lemma returned_frame_hello :
  @compressData Reference.zstd hello = Returned hello_frame
  /\ size hello_frame
     = fst (@ZSTD_compress Reference.zstd
              (@ZSTD_compressBound Reference.zstd (size hello)) hello COMPRESSION_LEVEL).
Proof.
  assert (Hc : @compressData Reference.zstd hello = Returned hello_frame)
    by reflexivity.
  split; [exact Hc|].
  exact (proj2 (proj2
           (@returned_frame_has_the_reported_size Reference.zstd hello hello_frame Hc))).
Defined.

(** X3 on a request that is not a POST. *)
Lemma a_get_passes :
  method a_get <> Post
  /\ @doFilter Reference.zstd accept_all a_get = Continued a_get.
Proof.
  assert (Hm : method a_get <> Post) by discriminate.
  split; [exact Hm|].
  exact (@requests_outside_the_policy_pass_unchanged Reference.zstd accept_all a_get
           (or_introl Hm)).
Defined.

(** X4 on a POST carrying the frame of [hello]. *)
Lemma a_post_is_decoded_or_refused :
  (exists p,
      @decompressData Reference.zstd (getBody a_post) = Returned p
      /\ @doFilter Reference.zstd accept_all a_post
         = Continued (mkRequest Post p (attributes a_post)))
  \/ (exists e,
         @decompressData Reference.zstd (getBody a_post) = Threw e
         /\ @doFilter Reference.zstd accept_all a_post
            = Replied k400BadRequest (list_byte_of_string "Invalid compressed data")).
Proof.
  assert (Hb : getBody a_post <> []) by discriminate.
  exact (@accepted_requests_are_decoded_or_refused Reference.zstd accept_all a_post
           eq_refl eq_refl Hb).
Defined.

(** X5 on the same request. *)
Lemma a_post_reaches_the_handler :
  @compressData Reference.zstd hello = Returned (getBody a_post)
  /\ @doFilter Reference.zstd accept_all a_post = Continued (mkRequest Post hello []).
Proof.
  assert (Hsize : size hello <= @string_max_size Reference.zstd)
    by (vm_compute; discriminate).
  assert (Hb : getBody a_post <> []) by discriminate.
  assert (Hc : @compressData Reference.zstd hello = Returned (getBody a_post))
    by reflexivity.
  split; [exact Hc|].
  exact (@compressed_request_reaches_the_handler Reference.zstd accept_all a_post hello
           zstd_string_sizes_are_plain
           (meets_compress_within_capacity _)
           (meets_frames_carry_content_size _)
           (meets_frames_decode _) Hsize eq_refl eq_refl Hb Hc).
Defined.

(** X6 on a POST carrying a streamed frame. *)
Lemma a_streamed_post_is_refused :
  @ZSTD_getFrameContentSize Reference.zstd (getBody a_streamed_post)
  = ZSTD_CONTENTSIZE_UNKNOWN
  /\ @doFilter Reference.zstd accept_all a_streamed_post
     = Replied 400 (list_byte_of_string "Invalid compressed data").
Proof.
  assert (Hb : getBody a_streamed_post <> []) by discriminate.
  assert (Hu : @ZSTD_getFrameContentSize Reference.zstd (getBody a_streamed_post)
               = ZSTD_CONTENTSIZE_UNKNOWN) by reflexivity.
  split; [exact Hu|].
  exact (@requests_without_usable_size_are_refused Reference.zstd accept_all
           a_streamed_post eq_refl eq_refl Hb (or_intror (or_introl Hu))).
Defined.

(** X7 on a plain-text response of 2000 bytes. *)
Lemma a_long_text_decompresses :
  size (body (@doFilter_response Reference.zstd a_long_text)) = 2009
  /\ @decompressData Reference.zstd (body (@doFilter_response Reference.zstd a_long_text))
     = Returned (body a_long_text)
  /\ headers (@doFilter_response Reference.zstd a_long_text)
     = [("Content-Encoding", "zstd"); ("Server", "drogon")]%string.
Proof.
  assert (Hsize : size (body a_long_text) <= @string_max_size Reference.zstd)
    by (vm_compute; discriminate).
  assert (Hne : @doFilter_response Reference.zstd a_long_text <> a_long_text).
  { intros H. apply (f_equal headers) in H. vm_compute in H. discriminate. }
  pose proof (@changed_response_decompresses_to_the_original Reference.zstd a_long_text
                zstd_string_sizes_are_plain
                (meets_compress_within_capacity _)
                (meets_frames_carry_content_size _)
                (meets_frames_decode _) Hsize Hne) as (Hd & Hh & _).
  split; [reflexivity|]. split; [exact Hd|exact Hh].
Defined.

(** X8 on a world with a live context: a run of [decompressStream] that
    throws on a byte that starts no frame leaves it live. *)
Lemma a_busy_world_keeps_its_context :
  result (@decompressStream Reference.zstd 8 (a_stream garbage) a_busy_world)
  = Threw (runtime_error "Decompression error: Unknown frame descriptor")
  /\ In 0%nat
       (live (world (@decompressStream Reference.zstd 8 (a_stream garbage) a_busy_world)))
  /\ tidy (world (@decompressStream Reference.zstd 8 (a_stream garbage) a_busy_world)).
Proof.
  assert (Hr : result (@decompressStream Reference.zstd 8 (a_stream garbage) a_busy_world)
               = Threw (runtime_error "Decompression error: Unknown frame descriptor"))
    by reflexivity.
  pose proof (@foreign_contexts_are_left_alone Reference.zstd 8 (a_stream garbage) hello
                a_busy_world _ a_busy_world_is_tidy
                (or_intror (or_intror
                   (ex_intro _ _ (ex_intro _ _
                      (conj (or_intror (or_introl eq_refl)) (conj Hr eq_refl)))))))
    as (Hkeep & _ & _ & Ht).
  split; [exact Hr|]. split; [apply Hkeep; now left|exact Ht].
Defined.

(** X9 on a world in which no context can be created. *)
Lemma nothing_happens_without_a_context :
  @advancedCompressData Reference.zstd hello an_exhausted_world
  = (Threw (runtime_error "Failed to create ZSTD compression context"),
     an_exhausted_world)
  /\ @decompressStream Reference.zstd 8 (a_stream hello_frame) an_exhausted_world
     = mkStreamRun (Threw (runtime_error "Failed to create ZSTD decompression context"))
         [] [] an_exhausted_world.
Proof.
  pose proof (@creation_failure_is_reported Reference.zstd 8 (a_stream hello_frame) hello
                an_exhausted_world eq_refl) as (Hc & _ & _ & _ & Hd & _).
  split; [exact Hc|exact Hd].
Defined.

(** X10 on [hello], on its frame and on a byte that starts no frame, in a
    world with a live context. *)
Lemma advanced_functions_release_in_a_busy_world :
  live (snd (@advancedCompressData Reference.zstd hello a_busy_world)) = [0%nat]
  /\ released (snd (@advancedCompressData Reference.zstd hello a_busy_world)) = [1%nat]
  /\ live (snd (@advancedDecompressData Reference.zstd hello_frame a_busy_world))
     = [0%nat]
  /\ released (snd (@advancedDecompressData Reference.zstd hello_frame a_busy_world))
     = [1%nat]
  /\ fst (@advancedDecompressData Reference.zstd garbage a_busy_world)
     = Threw (runtime_error "Invalid data for decompression")
  /\ released (snd (@advancedDecompressData Reference.zstd garbage a_busy_world))
     = [1%nat].
Proof.
  assert (Hw : ctx_budget a_busy_world <> 0%nat) by discriminate.
  assert (Hc : fst (@advancedCompressData Reference.zstd hello a_busy_world)
               = Returned hello_frame) by reflexivity.
  assert (Hd : fst (@advancedDecompressData Reference.zstd hello_frame a_busy_world)
               = Returned hello) by reflexivity.
  assert (Hg : fst (@advancedDecompressData Reference.zstd garbage a_busy_world)
               = Threw (runtime_error "Invalid data for decompression"))
    by reflexivity.
  pose proof (@advanced_functions_release_their_context Reference.zstd hello
                a_busy_world a_busy_world_is_tidy Hw) as [Hc' _].
  pose proof (@advanced_functions_release_their_context Reference.zstd hello_frame
                a_busy_world a_busy_world_is_tidy Hw) as [_ Hd'].
  pose proof (@advanced_functions_release_their_context Reference.zstd garbage
                a_busy_world a_busy_world_is_tidy Hw) as [_ Hg'].
  destruct (Hc' (or_introl (ex_intro _ _ Hc))) as (Hcl & Hcr & _).
  destruct (Hd' (or_introl (ex_intro _ _ Hd))) as (Hdl & Hdr & _).
  destruct (Hg' (or_intror (ex_intro _ _ Hg))) as (_ & Hgr & _).
  repeat split; assumption.
Defined.

(** X12 on a stream that throws at the end of the input. *)
Lemma compressStream_throws_with_the_stream :
  result (@compressStream Reference.zstd 8 (a_throwing_stream hello) an_empty_world)
  = Threw ios_failure
  /\ exceptions (a_throwing_stream hello) <> goodbit.
Proof.
  assert (Hr : result (@compressStream Reference.zstd 8 (a_throwing_stream hello)
                         an_empty_world) = Threw ios_failure) by reflexivity.
  split; [exact Hr|].
  destruct (@compressStream_throws_only_primitive_errors Reference.zstd 8
              (a_throwing_stream hello) an_empty_world ios_failure (or_introl Hr))
    as [H|[[_ H]|(ret & _ & _ & H)]]; [discriminate H|exact H|discriminate H].
Defined.

(** X13 on [hello] and its frame. *)
Lemma streaming_ends_on_hello :
  result (@compressStream Reference.zstd 16 (a_stream hello) an_empty_world) <> OutOfFuel
  /\ result (@decompressStream Reference.zstd 16 (a_stream hello) an_empty_world)
     <> OutOfFuel.
Proof.
  assert (HC : 0 < @ZSTD_CStreamOutSize Reference.zstd) by reflexivity.
  assert (HD : 0 < @ZSTD_DStreamOutSize Reference.zstd) by reflexivity.
  assert (Hfuel : (List.length (pending (a_stream hello)) + 1 < 16)%nat)
    by (vm_compute; repeat constructor).
  pose proof (@streaming_functions_terminate Reference.zstd 16 (a_stream hello)
                an_empty_world compress_makes_progress compress_makes_progress
                (meets_makes_progress 131072 eq_refl) HC HD Hfuel) as (Hc & Hd & _).
  split; [exact Hc|exact Hd].
Defined.

(** X14 on a failed stream that still holds the frame of [hello]. *)
Lemma a_failed_stream_is_not_read :
  good (a_failed_stream hello_frame) = false
  /\ result (@decompressStream Reference.zstd 8 (a_failed_stream hello_frame)
               an_empty_world) = FlowsOffEnd
  /\ accumulated (@decompressStream Reference.zstd 8 (a_failed_stream hello_frame)
                    an_empty_world) = []
  /\ returned_codes (@decompressStream Reference.zstd 8 (a_failed_stream hello_frame)
                       an_empty_world) = []
  /\ accumulated (@compressStream Reference.zstd 8 (a_failed_stream hello) an_empty_world)
     = [Reference.tag_streamed; Byte.x00].
Proof.
  assert (Hw : ctx_budget an_empty_world <> 0%nat) by discriminate.
  pose proof (@failed_stream_is_never_read Reference.zstd 8
                (a_failed_stream hello_frame) an_empty_world eq_refl Hw)
    as ((Hr & Ha & Hk) & _ & _).
  pose proof (@failed_stream_is_never_read Reference.zstd 8
                (a_failed_stream hello) an_empty_world eq_refl Hw)
    as (_ & (_ & Hc & _) & _).
  split; [reflexivity|]. split; [exact Hr|]. split; [exact Ha|]. split; [exact Hk|].
  rewrite Hc. reflexivity.
Defined.

(** X15 with the reference codec. *)
Lemma the_empty_input :
  result (@decompressStream Reference.zstd 1 (a_stream []) an_empty_world) = FlowsOffEnd
  /\ accumulated (@decompressStream Reference.zstd 1 (a_stream []) an_empty_world) = []
  /\ returned_codes (@decompressStream Reference.zstd 1 (a_stream []) an_empty_world)
     = []
  /\ accumulated (@compressStream Reference.zstd 1 (a_stream []) an_empty_world)
     = [Reference.tag_streamed; Byte.x00].
Proof.
  assert (HC : 0 < @ZSTD_CStreamOutSize Reference.zstd) by reflexivity.
  assert (HD : 0 < @ZSTD_DStreamOutSize Reference.zstd) by reflexivity.
  assert (Hfuel : 1%nat <> 0%nat) by discriminate.
  assert (Hw : ctx_budget an_empty_world <> 0%nat) by discriminate.
  pose proof (@empty_input_is_not_decoded Reference.zstd 1 an_empty_world HC HD Hfuel Hw)
    as ((Hr & Ha & Hk) & (_ & Hc & _) & _).
  split; [exact Hr|]. split; [exact Ha|]. split; [exact Hk|].
  unfold a_stream. rewrite Hc. reflexivity.
Defined.

(** X16 on a byte that starts no frame, in a world with a live context. *)
Lemma streaming_releases_before_throwing_on_garbage :
  result (@decompressStream Reference.zstd 8 (a_stream garbage) a_busy_world)
  = Threw (runtime_error "Decompression error: Unknown frame descriptor")
  /\ live (world (@decompressStream Reference.zstd 8 (a_stream garbage) a_busy_world))
     = [0%nat]
  /\ released (world (@decompressStream Reference.zstd 8 (a_stream garbage) a_busy_world))
     = [1%nat].
Proof.
  assert (Hw : ctx_budget a_busy_world <> 0%nat) by discriminate.
  assert (Hr : result (@decompressStream Reference.zstd 8 (a_stream garbage) a_busy_world)
               = Threw (runtime_error "Decompression error: Unknown frame descriptor"))
    by reflexivity.
  pose proof (@streaming_functions_release_before_throwing Reference.zstd 8
                (a_stream garbage) a_busy_world _ _ a_busy_world_is_tidy Hw eq_refl
                (or_intror (or_introl eq_refl)) Hr)
    as (Hl & Hr' & _).
  split; [exact Hr|]. split; [exact Hl|exact Hr'].
Defined.

(** X17 with the reference codec, whose two primitives are one. *)
Lemma advancedCompressStream_agrees_on_hello :
  continue_variants_agree Reference.zstd
  /\ accumulated (@advancedCompressStream Reference.zstd 8 (a_stream hello) an_empty_world)
     = accumulated (@compressStream Reference.zstd 8 (a_stream hello) an_empty_world).
Proof.
  assert (Ha : continue_variants_agree Reference.zstd).
  { intros c cap src. repeat split. }
  split; [exact Ha|].
  exact (proj1 (proj2 (@advancedCompressStream_agrees Reference.zstd 8 (a_stream hello)
                         an_empty_world Ha))).
Defined.

End MoreRuns.
